(** * DataConnector: a fail-soft facade over three service clients

    Shallow embedding of [src/main.py].  The module opens a PostgreSQL
    connection, a Redis client and an S3 client, runs a few sample
    operations against them and tears everything down, forever.

    The three client libraries (psycopg2, redis, boto3), the local file
    system and the process environment are outside the program.  They
    are modelled as an oracle ([Backend]) that answers every call with
    either a value or a raised exception, and that may look at the whole
    history of the run.  The facade itself is translated method by
    method into a state-and-exception monad whose state is the facade
    object together with the trace of observable events. *)

From Stdlib Require Import ZArith Ascii String.
From stdpp Require Import gmap strings list.

Open Scope string_scope.
Open Scope list_scope.

(** ** Python built-ins used by the module

    Strings are modelled as [string] over 8-bit characters and read as
    ASCII text: whitespace is what [str.isspace] accepts below code 128
    and [str.upper] maps [a-z] to [A-Z]. *)

Module Py.

(** [str.isspace] on one ASCII character: TAB, LF, VT, FF, CR, the
    four separators FS, GS, RS, US and the space. *)
Definition isspace (c : ascii) : bool :=
  let n := nat_of_ascii c in
  ((9 <=? n)%nat && (n <=? 13)%nat) || ((28 <=? n)%nat && (n <=? 32)%nat).

Fixpoint lstrip (s : string) : string :=
  match s with
  | EmptyString => EmptyString
  | String c s' => if isspace c then lstrip s' else s
  end.

Fixpoint rstrip (s : string) : string :=
  match s with
  | EmptyString => EmptyString
  | String c s' =>
      match rstrip s' with
      | EmptyString => if isspace c then EmptyString else String c EmptyString
      | r => String c r
      end
  end.

(** [s.strip()] *)
Definition strip (s : string) : string := rstrip (lstrip s).

Definition upper_char (c : ascii) : ascii :=
  let n := nat_of_ascii c in
  if (97 <=? n)%nat && (n <=? 122)%nat then ascii_of_nat (n - 32) else c.

(** [s.upper()] *)
Fixpoint upper (s : string) : string :=
  match s with
  | EmptyString => EmptyString
  | String c s' => String (upper_char c) (upper s')
  end.

(** [s.startswith(p)] *)
Fixpoint startswith (s p : string) : bool :=
  match p, s with
  | EmptyString, _ => true
  | String a p', String c s' => Ascii.eqb a c && startswith s' p'
  | String _ _, EmptyString => false
  end.

Definition digit (c : ascii) : option Z :=
  let n := nat_of_ascii c in
  if (48 <=? n)%nat && (n <=? 57)%nat then Some (Z.of_nat (n - 48)) else None.

(** Digits of a decimal literal; a single underscore is allowed
    between two digits.  [prev] tells whether the previous character
    was a digit. *)
Fixpoint digits (acc : Z) (prev : bool) (s : string) : option Z :=
  match s with
  | EmptyString => if prev then Some acc else None
  | String c s' =>
      match digit c with
      | Some d => digits (10 * acc + d) true s'
      | None =>
          if Ascii.eqb c "_" && prev then digits acc false s' else None
      end
  end.

(** [int(s)] for a string argument: surrounding whitespace, an
    optional sign, decimal digits.  [None] stands for the [ValueError]
    the built-in raises. *)
Definition int (s : string) : option Z :=
  match strip s with
  | String "+" r => digits 0 false r
  | String "-" r => Z.opp <$> digits 0 false r
  | r => digits 0 false r
  end.

(** [os.path.basename] on a POSIX path: what follows the last slash. *)
Fixpoint basename (p : string) : string :=
  match p with
  | EmptyString => EmptyString
  | String c p' =>
      if existsb (Ascii.eqb "/") (list_ascii_of_string p') then basename p'
      else if Ascii.eqb c "/" then p' else p
  end.

(** [os.getenv(key, default)] and [os.getenv(key)] *)
Definition getenv (environ : gmap string string) (key default : string)
  : string :=
  match environ !! key with Some v => v | None => default end.

Definition getenv_opt (environ : gmap string string) (key : string)
  : option string :=
  environ !! key.

End Py.


(** ** Values, client calls and the observable trace *)

(** A connection, cursor or client object, named by an identifier the
    client library chooses. *)
Definition handle := nat.

(** A raised [Exception], kept as its message.  Client libraries signal
    their errors with subclasses of [Exception]; [KeyboardInterrupt] and
    [SystemExit] are not errors of a client and are not modelled. *)
Definition exn := string.

Inductive result (A : Type) : Type :=
| Ok (a : A)
| Raise (e : exn).
Arguments Ok {A} a.
Arguments Raise {A} e.

Definition row := list string.

(** The Python values the facade hands back or prints. *)
Inductive value : Type :=
| VNone
| VBool (b : bool)
| VStr (s : string)
| VRows (rows : list row)
| VNames (names : list string).

Record pg_args : Type := PgArgs {
  pg_host : string;
  pg_port : string;
  pg_database : string;
  pg_user : string;
  pg_password : string;
  pg_connect_timeout : Z
}.

Record redis_args : Type := RedisArgs {
  redis_host : string;
  redis_port : Z;
  redis_db : Z;
  redis_decode_responses : bool
}.

Record s3_args : Type := S3Args {
  s3_service : string;
  s3_region_name : string;
  s3_access_key_id : option string;
  s3_secret_access_key : option string
}.

(** Every place where the module leaves its own code. *)
Inductive call : Type :=
| PgConnect (a : pg_args)                       (* psycopg2.connect(...) *)
| PgCursor (conn : handle)                      (* conn.cursor() *)
| CurExecute (cur : handle) (query : string) (params : list string)
| CurFetchall (cur : handle)
| CurClose (cur : handle)
| PgCommit (conn : handle)
| PgClose (conn : handle)
| RedisNew (a : redis_args)                     (* redis.Redis(...) *)
| RedisPing (c : handle)
| RedisSet (c : handle) (key val : string) (ex : option Z)
| RedisGet (c : handle) (key : string)
| RedisClose (c : handle)
| S3New (a : s3_args)                           (* boto3.client('s3', ...) *)
| S3ListBuckets (c : handle)
| S3Upload (c : handle) (file_path bucket object_name : string)
| S3Download (c : handle) (bucket object_name file_path : string)
| FileWrite (path content : string).            (* open(path, "w") + write *)

(** What a call gives back when it returns normally. *)
Definition reply (c : call) : Type :=
  match c with
  | PgConnect _ | PgCursor _ | RedisNew _ | S3New _ => handle
  | CurFetchall _ => list row
  | RedisGet _ _ => option string
  | S3ListBuckets _ => list string
  | _ => unit
  end.

Inductive event : Type :=
| Call (c : call) (r : result (reply c))
| Print (line : string)
| PrintV (prefix : string) (v : value)          (* f"{prefix}{v}" *)
| Sleep (seconds : Z).

(** The outside world: given the history of the run, the outcome of the
    next call. *)
Definition Backend : Type := list event -> forall c : call, result (reply c).

(** ** The facade object and the monad of its methods *)

Record DataConnector : Type := mkDataConnector {
  postgres_conn : option handle;
  redis_client : option handle;
  s3_client : option handle
}.

Record state : Type := mkState {
  self : DataConnector;
  trace : list event
}.

Definition M (A : Type) : Type := state -> result A * state.

Definition ret {A} (a : A) : M A := fun s => (Ok a, s).

Definition raise {A} (e : exn) : M A := fun s => (Raise e, s).

Definition bind {A B} (m : M A) (k : A -> M B) : M B :=
  fun s =>
    match m s with
    | (Ok a, s') => k a s'
    | (Raise e, s') => (Raise e, s')
    end.

(** [try: m  except Exception as e: h e] *)
Definition try_except {A} (m : M A) (h : exn -> M A) : M A :=
  fun s =>
    match m s with
    | (Ok a, s') => (Ok a, s')
    | (Raise e, s') => h e s'
    end.

(** stdpp's monad notations: [x ← m; k] and [m;; k]. *)
#[global] Instance M_ret : MRet M := @ret.
#[global] Instance M_bind : MBind M := fun A B k m => bind m k.

Definition emit (e : event) : M unit :=
  fun s => (Ok tt, mkState (self s) (trace s ++ [e])).

Definition print (line : string) : M unit := emit (Print line).
Definition printv (prefix : string) (v : value) : M unit :=
  emit (PrintV prefix v).

Definition get_self : M DataConnector := fun s => (Ok (self s), s).

Definition put_self (d : DataConnector) : M unit :=
  fun s => (Ok tt, mkState d (trace s)).

(** Truth value of an attribute that is [None] or a client object. *)
Definition truthy (h : option handle) : bool :=
  match h with Some _ => true | None => false end.

(** Calling a method on an attribute: [None] has no methods. *)
Definition attr (field : DataConnector -> option handle) (name : string)
  : M handle :=
  d ← get_self;
  match field d with
  | Some h => ret h
  | None => raise ("'NoneType' object has no attribute '" +:+ name +:+ "'")
  end.

(** [int(s)], raising [ValueError] as Python does. *)
Definition int_of (s : string) : M Z :=
  match Py.int s with
  | Some z => ret z
  | None => raise ("invalid literal for int() with base 10: '" +:+ s +:+ "'")
  end.

Definition value_of_cache (o : option string) : value :=
  match o with Some v => VStr v | None => VNone end.

(** ** The facade, method by method *)

Section Facade.

Variable B : Backend.
Variable environ : gmap string string.

(** One call to the outside: ask the backend, record call and outcome. *)
Definition client (c : call) : M (reply c) :=
  fun s =>
    let r := B (trace s) c in
    (r, mkState (self s) (trace s ++ [Call c r])).

(** [DataConnector()] *)
Definition init : M unit := put_self (mkDataConnector None None None).

Definition set_postgres_conn (h : handle) : M unit :=
  d ← get_self;
  put_self (mkDataConnector (Some h) (redis_client d) (s3_client d)).

Definition set_redis_client (h : handle) : M unit :=
  d ← get_self;
  put_self (mkDataConnector (postgres_conn d) (Some h) (s3_client d)).

Definition set_s3_client (h : handle) : M unit :=
  d ← get_self;
  put_self (mkDataConnector (postgres_conn d) (redis_client d) (Some h)).

Definition connect_postgres : M bool :=
  try_except
    (conn ← client (PgConnect (PgArgs
               (Py.getenv environ "POSTGRES_HOST" "localhost")
               (Py.getenv environ "POSTGRES_PORT" "5432")
               (Py.getenv environ "POSTGRES_DB" "postgres")
               (Py.getenv environ "POSTGRES_USER" "postgres")
               (Py.getenv environ "POSTGRES_PASSWORD" "postgres")
               3));
     set_postgres_conn conn;;
     print "Successfully connected to PostgreSQL!";;
     ret true)
    (fun e =>
       print ("Failed to connect to PostgreSQL: " +:+ e);;
       ret false).

Definition connect_redis : M bool :=
  try_except
    (let host := Py.getenv environ "CACHE_HOST" "localhost" in
     port ← int_of (Py.getenv environ "CACHE_PORT" "6379");
     db ← int_of (Py.getenv environ "CACHE_DB_NAME" "0");
     c ← client (RedisNew (RedisArgs host port db true));
     set_redis_client c;;
     (* Test connection *)
     rc ← attr redis_client "ping";
     client (RedisPing rc);;
     print "Successfully connected to Redis!";;
     ret true)
    (fun e =>
       print ("Failed to connect to Redis: " +:+ e);;
       ret false).

Definition connect_s3 : M bool :=
  try_except
    (c ← client (S3New (S3Args "s3"
               (Py.getenv environ "AWS_REGION" "eu-central-1")
               (Py.getenv_opt environ "AWS_ACCESS_KEY_ID")
               (Py.getenv_opt environ "AWS_SECRET_ACCESS_KEY")));
     set_s3_client c;;
     (* Test connection by listing buckets *)
     sc ← attr s3_client "list_buckets";
     response ← client (S3ListBuckets sc);
     print "Successfully connected to S3!";;
     printv "Available buckets: " (VNames response);;
     ret true)
    (fun e =>
       print ("Failed to connect to S3: " +:+ e);;
       ret false).

(** [query.strip().upper().startswith("SELECT")] *)
Definition is_select (query : string) : bool :=
  Py.startswith (Py.upper (Py.strip query)) "SELECT".

(** [params or ()] *)
Definition params_or_empty (params : option (list string)) : list string :=
  match params with
  | Some (p :: ps) => p :: ps
  | _ => []
  end.

Definition execute_postgres_query
    (query : string) (params : option (list string)) : M value :=
  d ← get_self;
  if negb (truthy (postgres_conn d)) then
    print "PostgreSQL connection not established";;
    ret VNone
  else
    try_except
      (conn ← attr postgres_conn "cursor";
       cursor ← client (PgCursor conn);
       client (CurExecute cursor query (params_or_empty params));;
       if is_select query then
         results ← client (CurFetchall cursor);
         client (CurClose cursor);;
         ret (VRows results)
       else
         conn' ← attr postgres_conn "commit";
         client (PgCommit conn');;
         client (CurClose cursor);;
         ret (VBool true))
      (fun e =>
         print ("Error executing PostgreSQL query: " +:+ e);;
         ret VNone).

Definition set_redis_value
    (key val : string) (expiry : option Z) : M bool :=
  d ← get_self;
  if negb (truthy (redis_client d)) then
    print "Redis connection not established";;
    ret false
  else
    try_except
      (rc ← attr redis_client "set";
       client (RedisSet rc key val expiry);;
       ret true)
      (fun e =>
         print ("Error setting Redis value: " +:+ e);;
         ret false).

Definition get_redis_value (key : string) : M (option string) :=
  d ← get_self;
  if negb (truthy (redis_client d)) then
    print "Redis connection not established";;
    ret None
  else
    try_except
      (rc ← attr redis_client "get";
       client (RedisGet rc key))
      (fun e =>
         print ("Error getting Redis value: " +:+ e);;
         ret None).

Definition upload_to_s3
    (file_path bucket_name : string) (object_name : option string)
  : M bool :=
  d ← get_self;
  if negb (truthy (s3_client d)) then
    print "S3 connection not established";;
    ret false
  else
    (* If object_name not specified, use file_name *)
    let object_name :=
      match object_name with
      | None => Py.basename file_path
      | Some n => n
      end in
    try_except
      (sc ← attr s3_client "upload_file";
       client (S3Upload sc file_path bucket_name object_name);;
       print ("File " +:+ file_path +:+ " uploaded to "
              +:+ bucket_name +:+ "/" +:+ object_name);;
       ret true)
      (fun e =>
         print ("Error uploading to S3: " +:+ e);;
         ret false).

Definition download_from_s3
    (bucket_name object_name file_path : string) : M bool :=
  d ← get_self;
  if negb (truthy (s3_client d)) then
    print "S3 connection not established";;
    ret false
  else
    try_except
      (sc ← attr s3_client "download_file";
       client (S3Download sc bucket_name object_name file_path);;
       print ("File " +:+ bucket_name +:+ "/" +:+ object_name
              +:+ " downloaded to " +:+ file_path);;
       ret true)
      (fun e =>
         print ("Error downloading from S3: " +:+ e);;
         ret false).

(** No handler here: an exception of either [close] leaves the method. *)
Definition close_connections : M unit :=
  d ← get_self;
  (if truthy (postgres_conn d) then
     conn ← attr postgres_conn "close";
     client (PgClose conn);;
     print "PostgreSQL connection closed"
   else ret tt);;
  d' ← get_self;
  (if truthy (redis_client d') then
     rc ← attr redis_client "close";
     client (RedisClose rc);;
     print "Redis connection closed"
   else ret tt);;
  (* S3 client uses boto3 sessions which don't need explicit closing *)
  print "All connections closed".

(** ** The driver *)

Definition create_table_sql : string :=
  "
                CREATE TABLE IF NOT EXISTS examples (
                    id SERIAL PRIMARY KEY,
                    name VARCHAR(100) NOT NULL,
                    created_at TIMESTAMP DEFAULT CURRENT_TIMESTAMP
                )
            ".

Definition separator : string :=
  "---------------------------------------------------------------------------------------".

(** One pass through the body of [while True]. *)
Definition iteration : M unit :=
  init;;
  (* Connect to all services *)
  pg_status ← connect_postgres;
  redis_status ← connect_redis;
  s3_status ← connect_s3;
  (if pg_status : bool then
     execute_postgres_query create_table_sql None;;
     execute_postgres_query
       "INSERT INTO examples (name) VALUES (%s)" (Some ["test_item"]);;
     results ← execute_postgres_query "SELECT * FROM examples" None;
     printv "PostgreSQL query results: " results
   else ret tt);;
  (if redis_status : bool then
     set_redis_value "example_key" "example_value" (Some 3600%Z);;
     v ← get_redis_value "example_key";
     printv "Redis cached value: " (value_of_cache v)
   else ret tt);;
  (if s3_status : bool then
     let bucket_name := Py.getenv environ "S3_BUCKET_NAME" "example-bucket" in
     client (FileWrite "test_file.txt" "This is a test file for S3 upload");;
     upload_to_s3 "test_file.txt" bucket_name None;;
     download_from_s3 bucket_name "test_file.txt" "downloaded_test_file.txt";;
     ret tt
   else ret tt);;
  (* Close all connections *)
  close_connections;;
  print separator;;
  emit (Sleep 3).

(** [main]: the loop has no exit of its own, so [main n] stands for its
    first [n] passes; a pass that raises ends the run. *)
Fixpoint main (n : nat) : M unit :=
  match n with
  | O => ret tt
  | S n' => iteration;; main n'
  end.

End Facade.

(** The arguments of the three constructors, as the connects build them
    from the environment. *)
Definition postgres_args (environ : gmap string string) : pg_args :=
  PgArgs (Py.getenv environ "POSTGRES_HOST" "localhost")
         (Py.getenv environ "POSTGRES_PORT" "5432")
         (Py.getenv environ "POSTGRES_DB" "postgres")
         (Py.getenv environ "POSTGRES_USER" "postgres")
         (Py.getenv environ "POSTGRES_PASSWORD" "postgres")
         3.

Definition cache_args (environ : gmap string string) : option redis_args :=
  match Py.int (Py.getenv environ "CACHE_PORT" "6379"),
        Py.int (Py.getenv environ "CACHE_DB_NAME" "0") with
  | Some port, Some db =>
      Some (RedisArgs (Py.getenv environ "CACHE_HOST" "localhost") port db true)
  | _, _ => None
  end.

Definition object_store_args (environ : gmap string string) : s3_args :=
  S3Args "s3" (Py.getenv environ "AWS_REGION" "eu-central-1")
         (Py.getenv_opt environ "AWS_ACCESS_KEY_ID")
         (Py.getenv_opt environ "AWS_SECRET_ACCESS_KEY").

(** ** Reading the trace *)

(** The event is a call that ended in an exception. *)
Definition raised (e : event) : bool :=
  match e with
  | Call _ (Raise _) => true
  | _ => false
  end.

(** The event is a call to the outside at all. *)
Definition is_call (e : event) : bool :=
  match e with
  | Call _ _ => true
  | _ => false
  end.


(** A [close] on connection or client [h]. *)
Definition is_close_of (h : handle) (e : event) : bool :=
  match e with
  | Call (PgClose h') _ | Call (RedisClose h') _ => Nat.eqb h h'
  | _ => false
  end.

Definition is_close (e : event) : bool :=
  match e with
  | Call (PgClose _) _ | Call (RedisClose _) _ => true
  | _ => false
  end.

Definition is_sleep (e : event) : bool :=
  match e with
  | Sleep _ => true
  | _ => false
  end.

(** The handle a successful constructor call returned. *)
Definition opened_by (e : event) : option (call * handle) :=
  match e with
  | Call c r =>
      match c return result (reply c) -> option (call * handle) with
      | PgConnect a => fun r =>
          match r with Ok h => Some (PgConnect a, h) | Raise _ => None end
      | RedisNew a => fun r =>
          match r with Ok h => Some (RedisNew a, h) | Raise _ => None end
      | S3New a => fun r =>
          match r with Ok h => Some (S3New a, h) | Raise _ => None end
      | _ => fun _ => None
      end r
  | _ => None
  end.

(** Connection [h] was opened by [psycopg2.connect] or [redis.Redis]
    during the run. *)
Definition opens (h : handle) (e : event) : bool :=
  match opened_by e with
  | Some (PgConnect _, h') | Some (RedisNew _, h') => Nat.eqb h h'
  | _ => false
  end.

Definition holds (d : DataConnector) (h : handle) : bool :=
  bool_decide (postgres_conn d = Some h)
  || bool_decide (redis_client d = Some h).

(** A leaked connection: opened during the run, never closed, and no
    longer reachable from the facade. *)
Definition leaked (s : state) (h : handle) : bool :=
  existsb (opens h) (trace s)
  && negb (existsb (is_close_of h) (trace s))
  && negb (holds (self s) h).

(** Calls of the three example blocks of the driver. *)
Definition is_pg_example (e : event) : bool :=
  match e with
  | Call (PgCursor _) _ | Call (CurExecute _ _ _) _ | Call (CurFetchall _) _
  | Call (CurClose _) _ | Call (PgCommit _) _ => true
  | _ => false
  end.

Definition is_redis_example (e : event) : bool :=
  match e with
  | Call (RedisSet _ _ _ _) _ | Call (RedisGet _ _) _ => true
  | _ => false
  end.

Definition is_s3_example (e : event) : bool :=
  match e with
  | Call (S3Upload _ _ _ _) _ | Call (S3Download _ _ _ _) _
  | Call (FileWrite _ _) _ => true
  | _ => false
  end.

(** The calls whose success makes a connect return [True]. *)
Definition pg_connected (e : event) : bool :=
  match e with
  | Call (PgConnect _) (Ok _) => true
  | _ => false
  end.

Definition redis_probed (e : event) : bool :=
  match e with
  | Call (RedisPing _) (Ok _) => true
  | _ => false
  end.

Definition s3_listed (e : event) : bool :=
  match e with
  | Call (S3ListBuckets _) (Ok _) => true
  | _ => false
  end.

(** ** The statement test, in the words of the specification

    "begins, case-insensitively and ignoring leading whitespace, with
    SELECT": skip the leading whitespace, then compare letter by letter
    up to case. *)

Definition same_letter (a b : ascii) : bool :=
  Ascii.eqb (Py.upper_char a) (Py.upper_char b).

Fixpoint begins_nocase (s p : string) : bool :=
  match p, s with
  | EmptyString, _ => true
  | String a p', String c s' => same_letter a c && begins_nocase s' p'
  | String _ _, EmptyString => false
  end.

Definition begins_with_select (query : string) : bool :=
  begins_nocase (Py.lstrip query) "select".

(** No letter of [p], once in upper case, is a whitespace character. *)
Definition spaceless (p : string) : bool :=
  forallb (fun a => negb (Py.isspace (Py.upper_char a)))
          (list_ascii_of_string p).

(** ** The facade as a set of operations

    A caller drives the facade through its nine methods.  [run_op]
    dispatches one of them; [after] is the facade a caller is left with
    after a sequence of them, whatever each returned or raised. *)

Inductive service : Type := Relational | Cache | ObjectStore.

Inductive op : Type :=
| ConnectPostgres
| ConnectRedis
| ConnectS3
| ExecuteQuery (query : string) (params : option (list string))
| SetValue (key val : string) (expiry : option Z)
| GetValue (key : string)
| Upload (file_path bucket_name : string) (object_name : option string)
| Download (bucket_name object_name file_path : string)
| CloseConnections.

Definition run_op (B : Backend) (environ : gmap string string) (o : op)
  : M value :=
  match o with
  | ConnectPostgres => b ← connect_postgres B environ; ret (VBool b)
  | ConnectRedis => b ← connect_redis B environ; ret (VBool b)
  | ConnectS3 => b ← connect_s3 B environ; ret (VBool b)
  | ExecuteQuery q ps => execute_postgres_query B q ps
  | SetValue k v ex => b ← set_redis_value B k v ex; ret (VBool b)
  | GetValue k => v ← get_redis_value B k; ret (value_of_cache v)
  | Upload f b o => r ← upload_to_s3 B f b o; ret (VBool r)
  | Download b o f => r ← download_from_s3 B b o f; ret (VBool r)
  | CloseConnections => close_connections B;; ret VNone
  end.

Definition after (B : Backend) (environ : gmap string string)
    (ops : list op) (s : state) : state :=
  fold_left (fun s o => snd (run_op B environ o s)) ops s.

(** The service whose handle a connect sets, and the service whose
    handle an operation needs. *)
Definition connects (o : op) : option service :=
  match o with
  | ConnectPostgres => Some Relational
  | ConnectRedis => Some Cache
  | ConnectS3 => Some ObjectStore
  | _ => None
  end.

Definition depends (o : op) : option service :=
  match o with
  | ExecuteQuery _ _ => Some Relational
  | SetValue _ _ _ | GetValue _ => Some Cache
  | Upload _ _ _ | Download _ _ _ => Some ObjectStore
  | _ => None
  end.

Definition is_connect_of (sv : service) (o : op) : bool :=
  match sv, o with
  | Relational, ConnectPostgres | Cache, ConnectRedis
  | ObjectStore, ConnectS3 => true
  | _, _ => false
  end.

Definition handle_of (sv : service) (d : DataConnector) : option handle :=
  match sv with
  | Relational => postgres_conn d
  | Cache => redis_client d
  | ObjectStore => s3_client d
  end.

(** The failure sentinel of each handle-dependent operation and the
    line it prints when its handle is unset. *)
Definition sentinel (o : op) : value :=
  match o with
  | ExecuteQuery _ _ | GetValue _ => VNone
  | _ => VBool false
  end.

Definition not_established (sv : service) : string :=
  match sv with
  | Relational => "PostgreSQL connection not established"
  | Cache => "Redis connection not established"
  | ObjectStore => "S3 connection not established"
  end.

(** The facade right after [DataConnector()]. *)
Definition new_facade (t : list event) : state :=
  mkState (mkDataConnector None None None) t.

(** ** Backends to run the model on *)

(** Handles are numbered by the length of the history, so no two
    constructor calls of a run return the same one. *)
Definition fresh (t : list event) : handle := S (length t).

(** All three services are up and every call succeeds. *)
Definition live : Backend :=
  fun t c =>
    match c return result (reply c) with
    | PgConnect _ | PgCursor _ | RedisNew _ | S3New _ => Ok (fresh t)
    | CurFetchall _ => Ok [["1"; "test_item"]]
    | RedisGet _ _ => Ok (Some "example_value")
    | S3ListBuckets _ => Ok ["example-bucket"]
    | _ => Ok tt
    end.

(** Nothing is reachable: every call raises. *)
Definition unreachable : Backend :=
  fun _ _ => Raise "connection refused".

(** [B], except that the calls picked by [p] raise [msg]. *)
Definition failing_on (p : call -> bool) (msg : exn) (B : Backend)
  : Backend :=
  fun t c => if p c then Raise msg else B t c.

Definition is_ping (c : call) : bool :=
  match c with RedisPing _ => true | _ => false end.

Definition is_pg_close (c : call) : bool :=
  match c with PgClose _ => true | _ => false end.

Definition is_execute (c : call) : bool :=
  match c with CurExecute _ _ _ => true | _ => false end.

Definition is_service_call (c : call) : bool :=
  match c with
  | PgClose _ | RedisClose _ | FileWrite _ _ => false
  | _ => true
  end.

(** ** Two sentences of the specification, as predicates on the model *)


(** Connecting again leaks none of the connections the facade held. *)
Definition reconnect_without_leak
    (connect : M bool) (s : state) : Prop :=
  forall h, holds (self s) h = true ->
            leaked (snd (connect s)) h = false.

(** The driver's claim read without any proviso: whatever the outside
    does, every pass of the loop completes. *)
Definition loop_never_stops (B : Backend) (environ : gmap string string)
  : Prop :=
  forall n s, fst (main B environ n s) = Ok tt.

(** ** Outcomes and the shape of one pass of the driver *)

(** [m], started in [s], returns normally with a value, a facade and
    a list of new events that satisfy [P]. *)
Definition outcome {A} (m : M A) (s : state)
    (P : A -> DataConnector -> list event -> Prop) : Prop :=
  exists v d evs, m s = (Ok v, mkState d (trace s ++ evs)) /\ P v d evs.

(** The example block of the driver a call belongs to, if any. *)
Definition block (e : event) : option service :=
  if is_pg_example e then Some Relational
  else if is_redis_example e then Some Cache
  else if is_s3_example e then Some ObjectStore
  else None.

(** No sleep among the events, and no example call other than those of
    block [sv]. *)
Definition within (sv : option service) (evs : list event) : Prop :=
  Forall (fun e => is_sleep e = false /\ (block e = None \/ block e = sv)) evs.



(** The calls of the driver that are neither a connect nor an example
    operation (the two closes of the teardown and the writing of the
    local test file) return normally. *)
Definition local_calls_return (B : Backend) : Prop :=
  (forall t h, B t (PgClose h) = Ok tt)
  /\ (forall t h, B t (RedisClose h) = Ok tt)
  /\ (forall t p c, B t (FileWrite p c) = Ok tt).


(** Facades and inputs the examples below are run on. *)
Definition all_connected : state :=
  mkState (mkDataConnector (Some 1) (Some 2) (Some 3)) [].

Definition only_postgres : state :=
  mkState (mkDataConnector (Some 1) None None) [].


(** The three services are down, the local machine is fine. *)
Definition services_down : Backend :=
  failing_on is_service_call "connection refused" live.

(** The string consists of whitespace only. *)
Definition all_space (s : string) : bool :=
  forallb Py.isspace (list_ascii_of_string s).

(** ** More readings of the trace *)

(** The exception a call ended in. *)
Definition raised_exn (e : event) : option exn :=
  match e with
  | Call _ (Raise x) => Some x
  | _ => None
  end.

(** The first exception of a list of events, with the events after it. *)
Fixpoint after_raise (evs : list event) : option (exn * list event) :=
  match evs with
  | [] => None
  | e :: evs' =>
      match raised_exn e with
      | Some x => Some (x, evs')
      | None => after_raise evs'
      end
  end.

(** The connection a commit was called on. *)
Definition commit_on (e : event) : option handle :=
  match e with
  | Call (PgCommit h) _ => Some h
  | _ => None
  end.

(** The cursor a successful [conn.cursor()] returned. *)
Definition cursor_of (e : event) : option handle :=
  match e with
  | Call c r =>
      match c return result (reply c) -> option handle with
      | PgCursor _ => fun r =>
          match r with Ok cur => Some cur | Raise _ => None end
      | _ => fun _ => None
      end r
  | _ => None
  end.

(** The cursor [close] was called on. *)
Definition cursor_closed (e : event) : option handle :=
  match e with
  | Call (CurClose cur) _ => Some cur
  | _ => None
  end.

(** A call other than [cursor.close()] that raised. *)
Definition failed_before_close (e : event) : bool :=
  match e with
  | Call (CurClose _) _ => false
  | _ => raised e
  end.

(** The fixed text each handler prints in front of the exception. *)
Definition failure_prefix (o : op) : string :=
  match o with
  | ConnectPostgres => "Failed to connect to PostgreSQL: "
  | ConnectRedis => "Failed to connect to Redis: "
  | ConnectS3 => "Failed to connect to S3: "
  | ExecuteQuery _ _ => "Error executing PostgreSQL query: "
  | SetValue _ _ _ => "Error setting Redis value: "
  | GetValue _ => "Error getting Redis value: "
  | Upload _ _ _ => "Error uploading to S3: "
  | Download _ _ _ => "Error downloading from S3: "
  | CloseConnections => ""
  end.

Definition is_list_buckets (c : call) : bool :=
  match c with S3ListBuckets _ => true | _ => false end.

(** The path contains a slash. *)
Definition has_slash (p : string) : bool :=
  existsb (Ascii.eqb "/") (list_ascii_of_string p).

(** The value a cache holds for [key] after the history [t]: that of
    the last [set] on client [c] that returned. *)
Fixpoint stored (c : handle) (key : string) (t : list event)
  : option string :=
  match t with
  | [] => None
  | e :: t' =>
      match stored c key t' with
      | Some v => Some v
      | None =>
          match e with
          | Call (RedisSet c' k v _) (Ok _) =>
              if Nat.eqb c c' && String.eqb key k then Some v else None
          | _ => None
          end
      end
  end.

(** A backend whose cache answers [get] with what was last set. *)
Definition caching : Backend :=
  fun t c =>
    match c return result (reply c) with
    | RedisGet h k => Ok (stored h k t)
    | c' => live t c'
    end.

(** ** Which calls belong to which method *)

Definition own_call (o : op) (c : call) : bool :=
  match o, c with
  | ConnectPostgres, PgConnect _ => true
  | ConnectRedis, (RedisNew _ | RedisPing _) => true
  | ConnectS3, (S3New _ | S3ListBuckets _) => true
  | ExecuteQuery _ _,
    (PgCursor _ | CurExecute _ _ _ | CurFetchall _ | CurClose _
     | PgCommit _) => true
  | SetValue _ _ _, RedisSet _ _ _ _ => true
  | GetValue _, RedisGet _ _ => true
  | Upload _ _ _, S3Upload _ _ _ _ => true
  | Download _ _ _, S3Download _ _ _ _ => true
  | CloseConnections, (PgClose _ | RedisClose _) => true
  | _, _ => false
  end.

(** An event a method may add to the trace: a printed line or one of
    its own calls. *)
Definition own_event (o : op) (e : event) : bool :=
  match e with
  | Call c _ => own_call o c
  | Sleep _ => false
  | _ => true
  end.

(** A call to the constructor of the client of service [sv], whether it
    returned or raised: one attempt to connect. *)
Definition is_constructor (sv : service) (e : event) : bool :=
  match sv, e with
  | Relational, Call (PgConnect _) _ => true
  | Cache, Call (RedisNew _) _ => true
  | ObjectStore, Call (S3New _) _ => true
  | _, _ => false
  end.

Definition no_constructor (e : event) : bool :=
  negb (is_constructor Relational e || is_constructor Cache e
        || is_constructor ObjectStore e).

Definition count (p : event -> bool) (evs : list event) : nat :=
  length (List.filter p evs).

(** A relational connection or cache client the event opened is the
    one facade [d] holds. *)
Definition held_by (d : DataConnector) (e : event) : Prop :=
  match opened_by e with
  | Some (PgConnect _, h) => postgres_conn d = Some h
  | Some (RedisNew _, h) => redis_client d = Some h
  | _ => True
  end.

(** The relational connection or cache client the event opened is
    closed, with [close] returning, among [post]. *)
Definition closed_in (post : list event) (e : event) : Prop :=
  match opened_by e with
  | Some (PgConnect _, h) => Call (PgClose h) (Ok tt) ∈ post
  | Some (RedisNew _, h) => Call (RedisClose h) (Ok tt) ∈ post
  | _ => True
  end.

(** A pass that cleans up after itself: it splits into a first part
    and a teardown such that every relational connection and cache
    client opened in the first part is closed in the teardown, and the
    teardown opens nothing. *)
Definition pass_tidy (evs : list event) : Prop :=
  exists pre post,
    evs = pre ++ post
    /\ Forall (closed_in post) pre
    /\ Forall (fun e => opened_by e = None) post.

(** An event that is neither a constructor call nor a sleep. *)
Definition plain (e : event) : bool :=
  no_constructor e && negb (is_sleep e).

(** The connection [conn.close()] was called on. *)
Definition pg_close_of (e : event) : option handle :=
  match e with
  | Call (PgClose h) _ => Some h
  | _ => None
  end.

(** * Properties *)

(** ** The statement test *)

Section SelectTest.

Lemma upper_char_space (c : ascii) :
  Py.isspace c = true -> Py.upper_char c = c.
Proof.
  unfold Py.isspace, Py.upper_char; cbv zeta; intros Hc.
  destruct (97 <=? nat_of_ascii c)%nat eqn:E1; [|done].
  apply Nat.leb_le in E1.
  destruct (nat_of_ascii c <=? 13)%nat eqn:E2;
    [apply Nat.leb_le in E2; lia|].
  destruct (nat_of_ascii c <=? 32)%nat eqn:E3;
    [apply Nat.leb_le in E3; lia|].
  rewrite !andb_false_r in Hc; done.
Qed.

Lemma same_letter_space (a c : ascii) :
  Py.isspace c = true ->
  Py.isspace (Py.upper_char a) = false ->
  same_letter a c = false.
Proof.
  intros Hc Ha; unfold same_letter.
  rewrite (upper_char_space c Hc).
  destruct (Ascii.eqb (Py.upper_char a) c) eqn:E; [|done].
  apply Ascii.eqb_eq in E; congruence.
Qed.

Lemma begins_nocase_empty (p : string) :
  begins_nocase "" p = match p with "" => true | _ => false end.
Proof. by destruct p. Qed.

Lemma begins_nocase_rstrip (s p : string) :
  spaceless p = true ->
  begins_nocase (Py.rstrip s) p = begins_nocase s p.
Proof.
  revert p; induction s as [|c s IH]; intros p Hp; [done|].
  destruct p as [|a p]; [by destruct (Py.rstrip (String c s))|].
  unfold spaceless in Hp; simpl in Hp.
  apply andb_true_iff in Hp as [Ha Hp].
  apply negb_true_iff in Ha.
  specialize (IH p Hp).
  simpl. destruct (Py.rstrip s) as [|c' r] eqn:E.
  - destruct (Py.isspace c) eqn:Hc.
    + by rewrite (same_letter_space a c Hc Ha).
    + rewrite <- IH. by destruct p.
  - rewrite <- IH. by destruct p.
Qed.

Lemma startswith_upper (s p : string) :
  Py.startswith (Py.upper s) (Py.upper p) = begins_nocase s p.
Proof.
  revert s; induction p as [|a p IH]; intros s; [by destruct s|].
  destruct s as [|c s]; [done|].
  simpl. by rewrite IH.
Qed.

(** The test of the code is the test of the specification. *)
Lemma is_select_spec (query : string) :
  is_select query = begins_with_select query.
Proof.
  unfold is_select, begins_with_select, Py.strip.
  change "SELECT" with (Py.upper "select").
  rewrite startswith_upper.
  by apply begins_nocase_rstrip.
Qed.

End SelectTest.

Example is_select_ex1 : is_select "  select * from t" = true.
Proof. reflexivity. Qed.
Example is_select_ex2 : is_select "SeLeCt 1" = true.
Proof. reflexivity. Qed.
Example is_select_ex3 : is_select "INSERT INTO t SELECT 1" = false.
Proof. reflexivity. Qed.
Example is_select_ex4 : is_select create_table_sql = false.
Proof. reflexivity. Qed.
Example strip_ex : Py.strip "  select 1 " = "select 1".
Proof. reflexivity. Qed.
Example int_ex1 : Py.int " 6379 " = Some 6379%Z.
Proof. reflexivity. Qed.
Example int_ex2 : Py.int "-1_0" = Some (-10)%Z.
Proof. reflexivity. Qed.
Example int_ex3 : Py.int "63 79" = None.
Proof. reflexivity. Qed.
Example int_ex4 : Py.int "1__0" = None.
Proof. reflexivity. Qed.
Example basename_ex1 : Py.basename "/tmp/a/test_file.txt" = "test_file.txt".
Proof. reflexivity. Qed.
Example basename_ex2 : Py.basename "dir/" = "".
Proof. reflexivity. Qed.

(** ** Running the methods

    Each method is run symbolically: the monad is unfolded and the
    outcome is read off, case by case on what the backend answers. *)

Ltac exec :=
  cbv beta iota zeta delta
    [try_except mbind M_bind bind mret M_ret ret raise attr get_self
     put_self print printv emit client int_of init set_postgres_conn
     set_redis_client set_s3_client truthy negb];
  cbn [self trace postgres_conn redis_client s3_client fst snd].

Ltac flat := rewrite <- ?app_assoc; cbn [app].

Lemma connect_postgres_run (B : Backend) (environ : gmap string string)
    (s : state) :
  connect_postgres B environ s =
  let c := PgConnect (postgres_args environ) in
  match B (trace s) c with
  | Ok h =>
      (Ok true,
       mkState (mkDataConnector (Some h) (redis_client (self s))
                                (s3_client (self s)))
               (trace s ++ [Call c (Ok h);
                            Print "Successfully connected to PostgreSQL!"]))
  | Raise e =>
      (Ok false,
       mkState (self s)
               (trace s ++ [Call c (Raise e);
                            Print ("Failed to connect to PostgreSQL: " +:+ e)]))
  end.
Proof.
  destruct s as [d t].
  unfold connect_postgres, postgres_args. exec.
  destruct (B _ _) as [h|e]; exec; by flat.
Qed.

Lemma connect_redis_run (B : Backend) (environ : gmap string string)
    (s : state) :
  connect_redis B environ s =
  match cache_args environ with
  | None =>
      (Ok false,
       mkState (self s)
         (trace s ++
          [Print ("Failed to connect to Redis: "
                  +:+ match Py.int (Py.getenv environ "CACHE_PORT" "6379") with
                      | None => "invalid literal for int() with base 10: '"
                                +:+ Py.getenv environ "CACHE_PORT" "6379"
                                +:+ "'"
                      | Some _ => "invalid literal for int() with base 10: '"
                                +:+ Py.getenv environ "CACHE_DB_NAME" "0"
                                +:+ "'"
                      end)]))
  | Some a =>
      match B (trace s) (RedisNew a) with
      | Raise e =>
          (Ok false,
           mkState (self s)
             (trace s ++ [Call (RedisNew a) (Raise e);
                          Print ("Failed to connect to Redis: " +:+ e)]))
      | Ok c =>
          let d := mkDataConnector (postgres_conn (self s)) (Some c)
                                   (s3_client (self s)) in
          let t := trace s ++ [Call (RedisNew a) (Ok c)] in
          match B t (RedisPing c) with
          | Ok u =>
              (Ok true,
               mkState d (trace s ++ [Call (RedisNew a) (Ok c);
                                      Call (RedisPing c) (Ok u);
                                      Print "Successfully connected to Redis!"]))
          | Raise e =>
              (Ok false,
               mkState d (trace s ++ [Call (RedisNew a) (Ok c);
                                      Call (RedisPing c) (Raise e);
                                      Print ("Failed to connect to Redis: "
                                             +:+ e)]))
          end
      end
  end.
Proof.
  destruct s as [d t].
  unfold connect_redis, cache_args. exec.
  destruct (Py.int (Py.getenv environ "CACHE_PORT" "6379")) as [port|];
    exec; [|done].
  destruct (Py.int (Py.getenv environ "CACHE_DB_NAME" "0")) as [db|];
    exec; [|done].
  destruct (B t _) as [c|e]; exec; [|by flat].
  destruct (B _ (RedisPing c)) as [u|e]; exec; by flat.
Qed.

Lemma connect_s3_run (B : Backend) (environ : gmap string string)
    (s : state) :
  connect_s3 B environ s =
  let a := object_store_args environ in
  match B (trace s) (S3New a) with
  | Raise e =>
      (Ok false,
       mkState (self s)
         (trace s ++ [Call (S3New a) (Raise e);
                      Print ("Failed to connect to S3: " +:+ e)]))
  | Ok c =>
      let d := mkDataConnector (postgres_conn (self s))
                               (redis_client (self s)) (Some c) in
      let t := trace s ++ [Call (S3New a) (Ok c)] in
      match B t (S3ListBuckets c) with
      | Ok names =>
          (Ok true,
           mkState d (trace s ++ [Call (S3New a) (Ok c);
                                  Call (S3ListBuckets c) (Ok names);
                                  Print "Successfully connected to S3!";
                                  PrintV "Available buckets: " (VNames names)]))
      | Raise e =>
          (Ok false,
           mkState d (trace s ++ [Call (S3New a) (Ok c);
                                  Call (S3ListBuckets c) (Raise e);
                                  Print ("Failed to connect to S3: " +:+ e)]))
      end
  end.
Proof.
  destruct s as [d t].
  unfold connect_s3, object_store_args. exec.
  destruct (B t _) as [c|e]; exec; [|by flat].
  destruct (B _ (S3ListBuckets c)) as [names|e]; exec; by flat.
Qed.

Ltac here :=
  repeat first [apply list_elem_of_here | apply list_elem_of_further].

(** Case analysis on the next answer of the backend. *)
Ltac ask B :=
  match goal with
  | |- context [B ?t ?c] =>
      lazymatch t with
      | context [B _ _] => fail
      | _ => destruct (B t c) as [?|?]; exec
      end
  end.

(** ** Statements against the relational handle *)


(** ** What every method leaves behind

    The eight methods with a handler return normally whatever the
    backend answers.  The six methods that are not a connect leave the
    facade as it was, and each stays within its own kind of calls. *)

Ltac within_tac :=
  unfold within;
  repeat (apply Forall_cons; split; [split; [reflexivity|cbn; auto]|]);
  apply Forall_nil_2.

Ltac finish :=
  eexists _, _, _; split; [by flat|]; split; [done|within_tac].

Lemma execute_postgres_query_outcome
    (B : Backend) (query : string) (params : option (list string))
    (s : state) :
  outcome (execute_postgres_query B query params) s
    (fun _ d evs => d = self s /\ within (Some Relational) evs).
Proof.
  destruct s as [[[conn|] rc sc] t]; unfold outcome, execute_postgres_query;
    exec; [|finish].
  ask B; [|finish]. ask B; [|finish].
  destruct (is_select query); exec; (ask B; [|finish]); ask B; finish.
Qed.

Lemma set_redis_value_outcome
    (B : Backend) (key val : string) (expiry : option Z) (s : state) :
  outcome (set_redis_value B key val expiry) s
    (fun _ d evs => d = self s /\ within (Some Cache) evs).
Proof.
  destruct s as [[pc [c|] sc] t]; unfold outcome, set_redis_value;
    exec; [|finish].
  ask B; finish.
Qed.

Lemma get_redis_value_outcome (B : Backend) (key : string) (s : state) :
  outcome (get_redis_value B key) s
    (fun _ d evs => d = self s /\ within (Some Cache) evs).
Proof.
  destruct s as [[pc [c|] sc] t]; unfold outcome, get_redis_value;
    exec; [|finish].
  ask B; finish.
Qed.

Lemma upload_to_s3_outcome
    (B : Backend) (file_path bucket_name : string)
    (object_name : option string) (s : state) :
  outcome (upload_to_s3 B file_path bucket_name object_name) s
    (fun _ d evs => d = self s /\ within (Some ObjectStore) evs).
Proof.
  destruct s as [[pc rc [c|]] t]; unfold outcome, upload_to_s3;
    exec; [|finish].
  ask B; finish.
Qed.

Lemma download_from_s3_outcome
    (B : Backend) (bucket_name object_name file_path : string) (s : state) :
  outcome (download_from_s3 B bucket_name object_name file_path) s
    (fun _ d evs => d = self s /\ within (Some ObjectStore) evs).
Proof.
  destruct s as [[pc rc [c|]] t]; unfold outcome, download_from_s3;
    exec; [|finish].
  ask B; finish.
Qed.

(** ** Teardown *)

Lemma close_connections_self (B : Backend) (s : state) :
  self (snd (close_connections B s)) = self s.
Proof.
  destruct s as [[[conn|] [c|] sc] t]; unfold close_connections; exec;
    repeat ask B; done.
Qed.



(** C3, at the failing input.  The facade holds a relational
    connection whose [close] raises: close-all has no handler, and
    the exception leaves the method. *)
Theorem close_connections_lets_exception_through :
  fst (close_connections
         (failing_on is_pg_close "connection already closed" live)
         only_postgres)
  = Raise "connection already closed".
Proof. reflexivity. Qed.

(** In general: whatever [close] raises on a set relational handle is
    what close-all raises; the cache handle is then not closed. *)
Lemma close_connections_raises (B : Backend) (s : state) (h : handle)
    (e : exn) :
  postgres_conn (self s) = Some h ->
  B (trace s) (PgClose h) = Raise e ->
  close_connections B s
  = (Raise e, mkState (self s) (trace s ++ [Call (PgClose h) (Raise e)])).
Proof.
  destruct s as [[pc rc sc] t]; cbn; intros -> E.
  unfold close_connections; exec. by rewrite E.
Qed.

(** ** Connecting *)

(** C5. When [psycopg2.connect] raises (no route, refused, bad
    credentials, timeout), connect-relational returns [False] and a
    relational handle that was unset is still unset; the rest of the
    facade is untouched as well. *)
Theorem connect_postgres_failure
    (B : Backend) (environ : gmap string string)
    (rc sc : option handle) (t : list event) (e : exn) :
  B t (PgConnect (postgres_args environ)) = Raise e ->
  exists evs,
    connect_postgres B environ (mkState (mkDataConnector None rc sc) t)
    = (Ok false, mkState (mkDataConnector None rc sc) (t ++ evs)).
Proof.
  intros E. rewrite connect_postgres_run. cbn. rewrite E. by eexists.
Qed.

Lemma connect_postgres_failure_witness :
  exists evs,
    connect_postgres unreachable ∅ (new_facade [])
    = (Ok false, new_facade ([] ++ evs)).
Proof.
  apply (connect_postgres_failure unreachable ∅ None None [] "connection refused").
  reflexivity.
Defined.

(** The flag tells exactly whether [psycopg2.connect] returned. *)
Lemma connect_postgres_flag
    (B : Backend) (environ : gmap string string) (s : state) :
  fst (connect_postgres B environ s) = Ok true
  <-> exists h, B (trace s) (PgConnect (postgres_args environ)) = Ok h.
Proof.
  rewrite connect_postgres_run. cbn.
  destruct (B _ _) as [h|e]; cbn; split; try done; eauto.
  by intros [? ?].
Qed.


(** C9. When the client is constructed but the probe raises,
    connect-cache returns [False] and the cache handle is that client
    all the same.  cache-set and cache-get on the facade then go to the
    client: their first event is the call, not the line that tells the
    connection is not established. *)
Theorem connect_redis_failed_probe_leaves_client
    (B : Backend) (environ : gmap string string) (s : state)
    (a : redis_args) (c : handle) (e : exn)
    (key val : string) (expiry : option Z) :
  cache_args environ = Some a ->
  B (trace s) (RedisNew a) = Ok c ->
  B (trace s ++ [Call (RedisNew a) (Ok c)]) (RedisPing c) = Raise e ->
  let s' := snd (connect_redis B environ s) in
  fst (connect_redis B environ s) = Ok false
  /\ redis_client (self s') = Some c
  /\ (exists r evs,
        trace (snd (set_redis_value B key val expiry s'))
        = trace s' ++ Call (RedisSet c key val expiry) r :: evs)
  /\ (exists r evs,
        trace (snd (get_redis_value B key s'))
        = trace s' ++ Call (RedisGet c key) r :: evs).
Proof.
  intros Ha Hc Hp. rewrite connect_redis_run, Ha, Hc. cbv beta iota zeta.
  change (@Ok handle c) with (@Ok (reply (RedisNew a)) c) in Hp.
  rewrite Hp. cbn [fst snd self trace redis_client].
  split; [done|]. split; [done|]. split.
  - unfold set_redis_value; exec. ask B; eexists _, _; by flat.
  - unfold get_redis_value; exec. ask B; eexists _, _; by flat.
Qed.

Lemma connect_redis_failed_probe_witness :
  let B := failing_on is_ping "timed out" live in
  let s' := snd (connect_redis B ∅ (new_facade [])) in
  fst (connect_redis B ∅ (new_facade [])) = Ok false
  /\ redis_client (self s') = Some 1
  /\ (exists r evs,
        trace (snd (set_redis_value B "k" "v" None s'))
        = trace s' ++ Call (RedisSet 1 "k" "v" None) r :: evs)
  /\ (exists r evs,
        trace (snd (get_redis_value B "k" s'))
        = trace s' ++ Call (RedisGet 1 "k") r :: evs).
Proof.
  apply (connect_redis_failed_probe_leaves_client
           (failing_on is_ping "timed out" live) ∅ (new_facade [])
           (RedisArgs "localhost" 6379 0 true) 1 "timed out" "k" "v" None);
    reflexivity.
Defined.

(** After a failed probe cache-set even reports success, as long as
    the client's [set] returns. *)
Example set_after_failed_probe :
  let B := failing_on is_ping "timed out" live in
  fst (set_redis_value B "k" "v" None
         (snd (connect_redis B ∅ (new_facade []))))
  = Ok true.
Proof. reflexivity. Qed.



(** ** Before the connect

    A handle is set by its own connect and by nothing else, so a facade
    on which that connect was never called has the handle unset. *)

Lemma run_op_frame (B : Backend) (environ : gmap string string)
    (o : op) (sv : service) (s : state) :
  is_connect_of sv o = false ->
  handle_of sv (self (snd (run_op B environ o s))) = handle_of sv (self s).
Proof.
  intros Ho. destruct o; unfold run_op; exec.
  - rewrite connect_postgres_run; cbv zeta.
    destruct (B _ _); by destruct sv.
  - rewrite connect_redis_run. destruct (cache_args environ); [|done].
    destruct (B _ _); [|done]. cbv zeta.
    destruct (B _ _); by destruct sv.
  - rewrite connect_s3_run; cbv zeta. destruct (B _ _); [|done].
    destruct (B _ _); by destruct sv.
  - by destruct (execute_postgres_query_outcome B query params s)
      as (v & d & evs & -> & -> & _).
  - by destruct (set_redis_value_outcome B key val expiry s)
      as (v & d & evs & -> & -> & _).
  - by destruct (get_redis_value_outcome B key s)
      as (v & d & evs & -> & -> & _).
  - by destruct (upload_to_s3_outcome B file_path bucket_name object_name s)
      as (v & d & evs & -> & -> & _).
  - by destruct (download_from_s3_outcome B bucket_name object_name
                   file_path s)
      as (v & d & evs & -> & -> & _).
  - pose proof (close_connections_self B s) as Hs.
    destruct (close_connections B s) as [[|] s']; cbn in *; by rewrite Hs.
Qed.

Lemma after_frame (B : Backend) (environ : gmap string string)
    (ops : list op) (sv : service) (s : state) :
  forallb (fun o => negb (is_connect_of sv o)) ops = true ->
  handle_of sv (self (after B environ ops s)) = handle_of sv (self s).
Proof.
  revert s; induction ops as [|o ops IH]; intros s Hops; [done|].
  cbn in Hops. apply andb_true_iff in Hops as [Ho Hops].
  apply negb_true_iff in Ho.
  change (after B environ (o :: ops) s)
    with (after B environ ops (snd (run_op B environ o s))).
  rewrite (IH _ Hops). by apply run_op_frame.
Qed.

(** C4. Take a new facade and call any methods on it, in any order and
    with any outcome, except the connect of one service.  A
    handle-dependent operation of that service then returns its failure
    sentinel ([None] for run-relational-statement and cache-get, [False]
    for cache-set, upload-object and download-object), leaves the facade
    as it is, and adds a single printed line to the trace: no call to
    the client is made. *)
Theorem not_connected_sentinel
    (B : Backend) (environ : gmap string string)
    (ops : list op) (o : op) (sv : service) (t : list event) :
  depends o = Some sv ->
  forallb (fun o' => negb (is_connect_of sv o')) ops = true ->
  run_op B environ o (after B environ ops (new_facade t))
  = (Ok (sentinel o),
     mkState (self (after B environ ops (new_facade t)))
             (trace (after B environ ops (new_facade t))
              ++ [Print (not_established sv)])).
Proof.
  intros Ho Hops.
  pose proof (after_frame B environ ops sv (new_facade t) Hops) as Hh.
  destruct (after B environ ops (new_facade t)) as [[pc rc sc] t'].
  destruct o; try discriminate Ho; injection Ho as <-;
    cbn in Hh; subst; reflexivity.
Qed.

Lemma not_connected_sentinel_witness :
  let ops := [ConnectRedis; SetValue "k" "v" None; ConnectS3;
              CloseConnections] in
  let o := ExecuteQuery "SELECT 1" None in
  run_op live ∅ o (after live ∅ ops (new_facade []))
  = (Ok (sentinel o),
     mkState (self (after live ∅ ops (new_facade [])))
             (trace (after live ∅ ops (new_facade []))
              ++ [Print (not_established Relational)])).
Proof.
  apply (not_connected_sentinel live ∅
           [ConnectRedis; SetValue "k" "v" None; ConnectS3; CloseConnections]
           (ExecuteQuery "SELECT 1" None) Relational []);
    reflexivity.
Defined.

(** ** Connecting twice *)

(** C7 (as amended).  A connect that returns [True] has set its
    handle to the client the constructor just returned, whatever the
    handle was before; and no connect ever makes a [close] call, so the
    connection the facade held before is replaced without being
    closed. *)
Theorem reconnect_replaces_without_closing
    (B : Backend) (environ : gmap string string) (s : state) :
  outcome (connect_postgres B environ) s
    (fun b d evs =>
       existsb is_close evs = false
       /\ (b = true ->
           exists h, Call (PgConnect (postgres_args environ)) (Ok h) ∈ evs
                     /\ postgres_conn d = Some h))
  /\ outcome (connect_redis B environ) s
    (fun b d evs =>
       existsb is_close evs = false
       /\ (b = true ->
           exists a h, Call (RedisNew a) (Ok h) ∈ evs
                       /\ redis_client d = Some h))
  /\ outcome (connect_s3 B environ) s
    (fun b d evs =>
       existsb is_close evs = false
       /\ (b = true ->
           exists h, Call (S3New (object_store_args environ)) (Ok h) ∈ evs
                     /\ s3_client d = Some h)).
Proof.
  unfold outcome. split; [|split].
  - rewrite connect_postgres_run; cbv zeta.
    destruct (B _ _) as [h|e]; eexists _, _, _; (split; [done|]);
      (split; [done|]); [|done].
    intros _. exists h. split; [here|done].
  - rewrite connect_redis_run.
    destruct (cache_args environ) as [a|];
      [|by eexists _, _, _; (split; [done|])].
    destruct (B _ _) as [h|e];
      [|by eexists _, _, _; (split; [done|])].
    cbv zeta. destruct (B _ _) as [u|e]; eexists _, _, _; (split; [done|]);
      (split; [done|]); [|done].
    intros _. exists a, h. split; [here|done].
  - rewrite connect_s3_run; cbv zeta.
    destruct (B _ _) as [h|e];
      [|by eexists _, _, _; (split; [done|])].
    destruct (B _ _) as [names|e]; eexists _, _, _; (split; [done|]);
      (split; [done|]); [|done].
    intros _. exists h. split; [here|done].
Qed.

(** C7, counterexample.  Connect to a live database twice: the
    connection opened first is no longer held by the facade and was
    never closed. *)
Lemma reconnect_leaks_prior_connection :
  ~ reconnect_without_leak
      (connect_postgres live ∅)
      (snd (connect_postgres live ∅ (new_facade []))).
Proof.
  intros H. specialize (H 1 eq_refl). vm_compute in H. discriminate.
Qed.

Example reconnect_handles :
  let s1 := snd (connect_postgres live ∅ (new_facade [])) in
  let s2 := snd (connect_postgres live ∅ s1) in
  postgres_conn (self s1) = Some 1
  /\ postgres_conn (self s2) = Some 3
  /\ leaked s2 1 = true.
Proof. vm_compute. done. Qed.

(** The cache client is replaced in the same way. *)
Example reconnect_leaks_prior_client :
  ~ reconnect_without_leak
      (connect_redis live ∅)
      (snd (connect_redis live ∅ (new_facade []))).
Proof.
  intros H. specialize (H 1 eq_refl). vm_compute in H. discriminate.
Qed.

(** ** The driver loop *)

(** *** A small logic of outcomes *)

Lemma outcome_bind {A A'} (m : M A) (k : A -> M A') (s : state)
    (P : A -> DataConnector -> list event -> Prop)
    (Q : A' -> DataConnector -> list event -> Prop) :
  outcome m s P ->
  (forall v d evs,
      P v d evs ->
      outcome (k v) (mkState d (trace s ++ evs))
              (fun w d' evs' => Q w d' (evs ++ evs'))) ->
  outcome (m ≫= k) s Q.
Proof.
  intros (v & d & evs & Em & HP) Hk.
  destruct (Hk v d evs HP) as (w & d' & evs' & Ek & HQ).
  exists w, d', (evs ++ evs'). split; [|done].
  unfold mbind, M_bind, bind. rewrite Em, Ek. cbn. by rewrite app_assoc.
Qed.

Lemma outcome_ret {A} (v : A) (s : state)
    (P : A -> DataConnector -> list event -> Prop) :
  P v (self s) [] -> outcome (mret v) s P.
Proof.
  intros HP. exists v, (self s), []. split; [|done].
  destruct s. unfold mret, M_ret, ret. cbn. by rewrite app_nil_r.
Qed.

Lemma outcome_emit (e : event) (s : state)
    (P : unit -> DataConnector -> list event -> Prop) :
  P tt (self s) [e] -> outcome (emit e) s P.
Proof. intros HP. by exists tt, (self s), [e]. Qed.

Lemma outcome_init (s : state)
    (P : unit -> DataConnector -> list event -> Prop) :
  P tt (mkDataConnector None None None) [] -> outcome init s P.
Proof.
  intros HP. exists tt, (mkDataConnector None None None), [].
  split; [|done]. unfold init, put_self. by rewrite app_nil_r.
Qed.

Lemma outcome_client (B : Backend) (c : call) (v : reply c) (s : state)
    (P : reply c -> DataConnector -> list event -> Prop) :
  B (trace s) c = Ok v ->
  P v (self s) [Call c (Ok v)] ->
  outcome (client B c) s P.
Proof.
  intros E HP. exists v, (self s), [Call c (Ok v)]. split; [|done].
  unfold client. by rewrite E.
Qed.

Lemma outcome_weaken {A} (m : M A) (s : state)
    (P Q : A -> DataConnector -> list event -> Prop) :
  outcome m s P -> (forall v d evs, P v d evs -> Q v d evs) -> outcome m s Q.
Proof. intros (v & d & evs & E & HP) HPQ. exists v, d, evs. eauto. Qed.

(** *** Events of one kind *)



Lemma within_none (sv : option service) (l : list event) :
  within None l -> within sv l.
Proof.
  intros H. eapply Forall_impl; [exact H|].
  intros e [Hs [Hb|Hb]]; split; auto.
Qed.






(** *** The three connects and the teardown, as outcomes *)

Lemma connect_postgres_outcome
    (B : Backend) (environ : gmap string string) (s : state) :
  outcome (connect_postgres B environ) s
    (fun b _ evs =>
       within None evs /\ (b = true -> existsb pg_connected evs = true)).
Proof.
  unfold outcome. rewrite connect_postgres_run; cbv zeta.
  destruct (B _ _) as [h|e]; eexists _, _, _; (split; [done|]);
    (split; [within_tac|done]).
Qed.

Lemma connect_redis_outcome
    (B : Backend) (environ : gmap string string) (s : state) :
  outcome (connect_redis B environ) s
    (fun b _ evs =>
       within None evs /\ (b = true -> existsb redis_probed evs = true)).
Proof.
  unfold outcome. rewrite connect_redis_run.
  destruct (cache_args environ) as [a|].
  2:{ eexists _, _, _; (split; [done|]); (split; [within_tac|done]). }
  destruct (B _ _) as [h|e].
  2:{ eexists _, _, _; (split; [done|]); (split; [within_tac|done]). }
  cbv zeta. destruct (B _ _) as [u|e]; eexists _, _, _; (split; [done|]);
    (split; [within_tac|done]).
Qed.

Lemma connect_s3_outcome
    (B : Backend) (environ : gmap string string) (s : state) :
  outcome (connect_s3 B environ) s
    (fun b _ evs =>
       within None evs /\ (b = true -> existsb s3_listed evs = true)).
Proof.
  unfold outcome. rewrite connect_s3_run; cbv zeta.
  destruct (B _ _) as [h|e].
  2:{ eexists _, _, _; (split; [done|]); (split; [within_tac|done]). }
  destruct (B _ _) as [u|e]; eexists _, _, _; (split; [done|]);
    (split; [within_tac|done]).
Qed.


(** *** One pass *)





Ltac then_ lem :=
  eapply outcome_bind; [apply lem|]; cbn beta.




(** Three passes with every service down: the run goes on, and has
    slept three times. *)
Example main_services_down :
  let r := main services_down ∅ 3 (new_facade []) in
  fst r = Ok tt
  /\ length (filter (fun e => is_sleep e = true) (trace (snd r))) = 3
  /\ existsb (fun e => is_pg_example e || is_redis_example e
                        || is_s3_example e) (trace (snd r)) = false.
Proof. vm_compute. done. Qed.

(** One pass with everything up runs the three example blocks. *)
Example main_live :
  let r := main live ∅ 1 (new_facade []) in
  fst r = Ok tt
  /\ existsb is_pg_example (trace (snd r)) = true
  /\ existsb is_redis_example (trace (snd r)) = true
  /\ existsb is_s3_example (trace (snd r)) = true.
Proof. vm_compute. done. Qed.

(** The proviso of C8 cannot be dropped: the teardown has no handler,
    so a [close] that raises ends the run in the first pass. *)
Lemma main_stops_when_close_raises :
  ~ loop_never_stops (failing_on is_pg_close "connection already closed" live) ∅.
Proof.
  intros H. specialize (H 1 (new_facade [])). vm_compute in H. discriminate.
Qed.

(** ** The handlers *)

(** Each of the eight methods other than close-all returns normally,
    whatever the backend answers: every exception a client raises is
    caught where the call is made. *)
Lemma handlers_catch_everything
    (B : Backend) (environ : gmap string string) (o : op) (s : state) :
  o <> CloseConnections ->
  exists v, fst (run_op B environ o s) = Ok v.
Proof.
  intros Ho. destruct o; [..|done]; unfold run_op; exec.
  - destruct (connect_postgres_outcome B environ s)
      as (v & d & evs & -> & _); eauto.
  - destruct (connect_redis_outcome B environ s)
      as (v & d & evs & -> & _); eauto.
  - destruct (connect_s3_outcome B environ s)
      as (v & d & evs & -> & _); eauto.
  - destruct (execute_postgres_query_outcome B query params s)
      as (v & d & evs & -> & _); eauto.
  - destruct (set_redis_value_outcome B key val expiry s)
      as (v & d & evs & -> & _); eauto.
  - destruct (get_redis_value_outcome B key s)
      as (v & d & evs & -> & _); eauto.
  - destruct (upload_to_s3_outcome B file_path bucket_name object_name s)
      as (v & d & evs & -> & _); eauto.
  - destruct (download_from_s3_outcome B bucket_name object_name
                file_path s)
      as (v & d & evs & -> & _); eauto.
Qed.


(** * Further properties of the module *)

(** ** The statement test, once more *)

Lemma append_cons (c : ascii) (s t : string) :
  String c s +:+ t = String c (s +:+ t).
Proof. reflexivity. Qed.

Lemma append_empty (t : string) : "" +:+ t = t.
Proof. reflexivity. Qed.

Lemma lstrip_split (q : string) :
  exists ws, q = ws +:+ Py.lstrip q /\ all_space ws = true.
Proof.
  induction q as [|c q (ws & Hq & Hws)]; [by exists ""|].
  cbn [Py.lstrip]. destruct (Py.isspace c) eqn:Hc; [|by exists ""].
  exists (String c ws). split; [rewrite append_cons; by f_equal|].
  unfold all_space. cbn. by rewrite Hc.
Qed.

Lemma lstrip_app_space (ws s : string) :
  all_space ws = true -> Py.lstrip (ws +:+ s) = Py.lstrip s.
Proof.
  induction ws as [|c ws IH]; [done|].
  unfold all_space. cbn. intros [Hc Hws]%andb_true_iff.
  rewrite append_cons. cbn [Py.lstrip]. rewrite Hc. by apply IH.
Qed.

Lemma begins_nocase_split (s p : string) :
  begins_nocase s p = true
  <-> exists kw rest, s = kw +:+ rest /\ Py.upper kw = Py.upper p.
Proof.
  revert s; induction p as [|a p IH]; intros s.
  - split; [intros _; by exists "", s|by destruct s].
  - destruct s as [|c s]; cbn [begins_nocase Py.upper].
    + split; [done|]. intros ([|? ?] & rest & ? & ?); done.
    + rewrite andb_true_iff, IH. unfold same_letter. split.
      * intros [Hc (kw & rest & -> & Hkw)].
        apply Ascii.eqb_eq in Hc.
        exists (String c kw), rest. rewrite append_cons.
        cbn [Py.upper]. by rewrite Hkw, Hc.
      * intros ([|c' kw] & rest & Hs & Hkw); [done|].
        rewrite append_cons in Hs. cbn [Py.upper] in Hkw.
        injection Hs as <- ->. injection Hkw as Hc Hkw.
        split; [by apply Ascii.eqb_eq|by exists kw, rest].
Qed.

(** X1. The test that decides between fetching rows and committing
    accepts exactly the statements made of a run of whitespace, then
    six characters that read SELECT in upper case, then anything. *)
Theorem select_test_characterised (query : string) :
  is_select query = true
  <-> exists ws kw rest,
        query = ws +:+ kw +:+ rest
        /\ all_space ws = true
        /\ Py.upper kw = "SELECT".
Proof.
  rewrite is_select_spec. unfold begins_with_select.
  rewrite begins_nocase_split. split.
  - intros (kw & rest & Hs & Hkw).
    destruct (lstrip_split query) as (ws & Hq & Hws).
    exists ws, kw, rest. by rewrite <- Hs.
  - intros (ws & kw & rest & -> & Hws & Hkw).
    exists kw, rest. split; [|done].
    rewrite lstrip_app_space by done.
    destruct kw as [|c kw]; [done|]. cbn [Py.upper] in Hkw.
    injection Hkw as Hc _.
    rewrite append_cons. cbn [Py.lstrip].
    destruct (Py.isspace c) eqn:Hsp; [|done].
    rewrite (upper_char_space c Hsp) in Hc. by subst c.
Qed.

(** ** The statement, the transaction and the cursor *)

Ltac units :=
  repeat match goal with
         | u : unit |- _ => destruct u
         | u : reply _ |- _ => progress cbn in u
         end.

(** X2. On a connected relational handle a commit is made at most
    once, on the facade's own connection, and only for a statement that
    is not a SELECT and whose [execute] returned normally: a statement
    that failed to execute is never committed. *)
Theorem commit_only_after_execute
    (B : Backend) (query : string) (params : option (list string))
    (conn : handle) (rc sc : option handle) (t : list event) :
  exists v evs,
    execute_postgres_query B query params
      (mkState (mkDataConnector (Some conn) rc sc) t)
    = (Ok v, mkState (mkDataConnector (Some conn) rc sc) (t ++ evs))
    /\ (omap commit_on evs = []
        \/ (omap commit_on evs = [conn]
            /\ is_select query = false
            /\ exists cur,
                 Call (CurExecute cur query (params_or_empty params)) (Ok tt)
                 ∈ evs)).
Proof.
  unfold execute_postgres_query. exec.
  ask B; [|eexists _, _; split; [by flat|by left]].
  ask B; [|eexists _, _; split; [by flat|by left]].
  destruct (is_select query) eqn:Hq; exec;
    (ask B; [ask B|]); units;
    eexists _, _; (split; [by flat|]); try by left.
  all: right; split; [done|]; split; [done|]; eexists; here.
Qed.

(** X3. On a connected relational handle the cursor is closed exactly
    when no call before [cursor.close()] raised.  When [execute],
    [fetchall] or [commit] raises, the handler returns without closing
    the cursor it had opened. *)
Theorem cursor_closed_unless_failed
    (B : Backend) (query : string) (params : option (list string))
    (conn : handle) (rc sc : option handle) (t : list event) :
  exists v evs,
    execute_postgres_query B query params
      (mkState (mkDataConnector (Some conn) rc sc) t)
    = (Ok v, mkState (mkDataConnector (Some conn) rc sc) (t ++ evs))
    /\ omap cursor_closed evs
       = (if existsb failed_before_close evs then []
          else omap cursor_of evs)
    /\ (length (omap cursor_of evs) <= 1)%nat.
Proof.
  unfold execute_postgres_query. exec.
  ask B; [|eexists _, _; split; [by flat|cbn; auto]].
  ask B; [|eexists _, _; split; [by flat|cbn; auto]].
  destruct (is_select query) eqn:Hq; exec;
    (ask B; [ask B|]);
    eexists _, _; (split; [by flat|]); cbn; auto.
Qed.

(** ** The handlers, once more *)

(** X5. In each of the eight methods with a handler, a call that
    raises is the last call the method makes: what follows is the one
    line made of the method's fixed text and the text of the exception,
    and the method returns its failure value ([None] for
    run-relational-statement and cache-get, [False] for the others).
    Nothing is retried and nothing else is attempted. *)
Theorem handlers_stop_at_first_failure
    (B : Backend) (environ : gmap string string) (o : op) (s : state) :
  o <> CloseConnections ->
  outcome (run_op B environ o) s
    (fun v _ evs =>
       forall x post,
         after_raise evs = Some (x, post) ->
         post = [Print (failure_prefix o +:+ x)] /\ v = sentinel o).
Proof.
  intros Ho. unfold outcome.
  destruct o; [..|done]; unfold run_op; exec.
  - rewrite connect_postgres_run; cbv zeta.
    destruct (B _ _); eexists _, _, _; (split; [done|]);
      cbn; intros x post [= <- <-]; done.
  - rewrite connect_redis_run.
    destruct (cache_args environ);
      [|by eexists _, _, _; (split; [done|])].
    destruct (B _ _);
      [|eexists _, _, _; (split; [done|]);
        cbn; intros x post [= <- <-]; done].
    cbv zeta. destruct (B _ _); eexists _, _, _; (split; [done|]);
      cbn; intros x post [= <- <-]; done.
  - rewrite connect_s3_run; cbv zeta.
    destruct (B _ _);
      [|eexists _, _, _; (split; [done|]);
        cbn; intros x post [= <- <-]; done].
    destruct (B _ _); eexists _, _, _; (split; [done|]);
      cbn; intros x post [= <- <-]; done.
  - destruct s as [[[conn|] rc sc] t]; unfold execute_postgres_query; exec;
      [|by eexists _, _, _; (split; [by flat|])].
    ask B; [|eexists _, _, _; (split; [by flat|]);
             cbn; intros x post [= <- <-]; done].
    ask B; [|eexists _, _, _; (split; [by flat|]);
             cbn; intros x post [= <- <-]; done].
    destruct (is_select query); exec; (ask B; [ask B|]);
      eexists _, _, _; (split; [by flat|]);
      cbn; intros x post [= <- <-]; done.
  - destruct s as [[pc [c|] sc] t]; unfold set_redis_value; exec;
      [|by eexists _, _, _; (split; [by flat|])].
    ask B; eexists _, _, _; (split; [by flat|]);
      cbn; intros x post [= <- <-]; done.
  - destruct s as [[pc [c|] sc] t]; unfold get_redis_value; exec;
      [|by eexists _, _, _; (split; [by flat|])].
    ask B; eexists _, _, _; (split; [by flat|]);
      cbn; intros x post [= <- <-]; done.
  - destruct s as [[pc rc [c|]] t]; unfold upload_to_s3; exec;
      [|by eexists _, _, _; (split; [by flat|])].
    ask B; eexists _, _, _; (split; [by flat|]);
      cbn; intros x post [= <- <-]; done.
  - destruct s as [[pc rc [c|]] t]; unfold download_from_s3; exec;
      [|by eexists _, _, _; (split; [by flat|])].
    ask B; eexists _, _, _; (split; [by flat|]);
      cbn; intros x post [= <- <-]; done.
Qed.

(** ** The object store *)

(** X4. When the object-store client is constructed but listing the
    buckets raises, connect-object-store returns [False] and the handle
    is that client all the same; upload-object and download-object on
    the facade then go to the client instead of reporting that the
    connection is not established. *)
Theorem connect_s3_failed_listing_leaves_client
    (B : Backend) (environ : gmap string string) (s : state)
    (c : handle) (e : exn) (file_path bucket object_name : string) :
  B (trace s) (S3New (object_store_args environ)) = Ok c ->
  B (trace s ++ [Call (S3New (object_store_args environ)) (Ok c)])
    (S3ListBuckets c) = Raise e ->
  let s' := snd (connect_s3 B environ s) in
  fst (connect_s3 B environ s) = Ok false
  /\ s3_client (self s') = Some c
  /\ (exists r evs,
        trace (snd (upload_to_s3 B file_path bucket (Some object_name) s'))
        = trace s' ++ Call (S3Upload c file_path bucket object_name) r :: evs)
  /\ (exists r evs,
        trace (snd (download_from_s3 B bucket object_name file_path s'))
        = trace s'
          ++ Call (S3Download c bucket object_name file_path) r :: evs).
Proof.
  intros Hc Hl. rewrite connect_s3_run. cbv zeta. rewrite Hc.
  cbv beta iota zeta.
  change (@Ok handle c)
    with (@Ok (reply (S3New (object_store_args environ))) c) in Hl.
  rewrite Hl. cbn [fst snd self trace s3_client].
  split; [done|]. split; [done|]. split.
  - unfold upload_to_s3; exec. ask B; eexists _, _; by flat.
  - unfold download_from_s3; exec. ask B; eexists _, _; by flat.
Qed.

Lemma connect_s3_failed_listing_witness :
  let B := failing_on is_list_buckets "access denied" live in
  let s' := snd (connect_s3 B ∅ (new_facade [])) in
  fst (connect_s3 B ∅ (new_facade [])) = Ok false
  /\ s3_client (self s') = Some 1
  /\ (exists r evs,
        trace (snd (upload_to_s3 B "a.txt" "b" (Some "o") s'))
        = trace s' ++ Call (S3Upload 1 "a.txt" "b" "o") r :: evs)
  /\ (exists r evs,
        trace (snd (download_from_s3 B "b" "o" "a.txt" s'))
        = trace s' ++ Call (S3Download 1 "b" "o" "a.txt") r :: evs).
Proof.
  apply (connect_s3_failed_listing_leaves_client
           (failing_on is_list_buckets "access denied" live) ∅
           (new_facade []) 1 "access denied" "a.txt" "b" "o");
    reflexivity.
Defined.

Lemma has_slash_cons (c : ascii) (p : string) :
  has_slash (String c p) = Ascii.eqb c "/" || has_slash p.
Proof.
  unfold has_slash. cbn [list_ascii_of_string existsb].
  by rewrite Ascii.eqb_sym.
Qed.

Lemma basename_no_slash (p : string) : has_slash (Py.basename p) = false.
Proof.
  induction p as [|c p IH]; [done|].
  cbn [Py.basename]. fold (has_slash p).
  destruct (has_slash p) eqn:Hp; [done|].
  destruct (Ascii.eqb c "/") eqn:Hc; [done|].
  by rewrite has_slash_cons, Hc, Hp.
Qed.

Lemma basename_suffix (p : string) :
  exists dir, p = dir +:+ Py.basename p
              /\ (has_slash p = false -> dir = "")
              /\ (has_slash p = true -> exists dir', dir = dir' +:+ "/").
Proof.
  induction p as [|c p (dir & Hp & Hno & Hyes)]; [by exists ""|].
  cbn [Py.basename]. fold (has_slash p).
  rewrite has_slash_cons.
  destruct (has_slash p) eqn:Hs.
  - destruct (Hyes eq_refl) as (dir' & ->).
    exists (String c dir' +:+ "/"). rewrite orb_true_r.
    split; [rewrite !append_cons; by f_equal|].
    split; [done|]. by exists (String c dir').
  - rewrite orb_false_r. destruct (Ascii.eqb c "/") eqn:Hc.
    + apply Ascii.eqb_eq in Hc as ->. exists "/".
      split; [done|]. split; [done|]. by exists "".
    + by exists "".
Qed.

(** X6. When upload-object is given no object name, the key sent to
    the client is the part of the file path after its last slash: it
    contains no slash, the path ends with it, and a path without a
    slash is used as the key unchanged. *)
Theorem upload_default_key
    (B : Backend) (file_path bucket_name : string)
    (pc rc : option handle) (c : handle) (t : list event) :
  let key := Py.basename file_path in
  (exists r evs,
      trace (snd (upload_to_s3 B file_path bucket_name None
                    (mkState (mkDataConnector pc rc (Some c)) t)))
      = t ++ Call (S3Upload c file_path bucket_name key) r :: evs)
  /\ has_slash key = false
  /\ (exists dir, file_path = dir +:+ key)
  /\ (has_slash file_path = false -> key = file_path).
Proof.
  intros key. split; [|split; [apply basename_no_slash|split]].
  - unfold upload_to_s3; exec. ask B; eexists _, _; by flat.
  - destruct (basename_suffix file_path) as (dir & H & _). by exists dir.
  - intros Hs. destruct (basename_suffix file_path) as (dir & H & Hd & _).
    rewrite (Hd Hs) in H. exact (eq_sym H).
Qed.

(** ** The cache *)

(** X7. With a cache that accepts a [set] and then answers [get] on
    that key with the value set, cache-set followed by cache-get on the
    same key returns the value: the facade hands key, value and reply
    through unchanged and makes no call in between. *)
Theorem cache_round_trip
    (B : Backend) (key val : string) (expiry : option Z)
    (pc sc : option handle) (c : handle) (t : list event) :
  B t (RedisSet c key val expiry) = Ok tt ->
  B (t ++ [Call (RedisSet c key val expiry) (Ok tt)]) (RedisGet c key)
  = Ok (Some val) ->
  let s := mkState (mkDataConnector pc (Some c) sc) t in
  let s' := snd (set_redis_value B key val expiry s) in
  fst (set_redis_value B key val expiry s) = Ok true
  /\ fst (get_redis_value B key s') = Ok (Some val)
  /\ trace (snd (get_redis_value B key s'))
     = t ++ [Call (RedisSet c key val expiry) (Ok tt);
             Call (RedisGet c key) (Ok (Some val))].
Proof.
  intros Hset Hget s s'; subst s s'.
  unfold set_redis_value; exec. rewrite Hset; exec.
  unfold get_redis_value; exec.
  rewrite Hget; exec. by flat.
Qed.

Lemma cache_round_trip_witness :
  let s := mkState (mkDataConnector None (Some 2) None) [] in
  let s' := snd (set_redis_value caching "k" "v" (Some 60%Z) s) in
  fst (set_redis_value caching "k" "v" (Some 60%Z) s) = Ok true
  /\ fst (get_redis_value caching "k" s') = Ok (Some "v")
  /\ trace (snd (get_redis_value caching "k" s'))
     = [] ++ [Call (RedisSet 2 "k" "v" (Some 60%Z)) (Ok tt);
              Call (RedisGet 2 "k") (Ok (Some "v"))].
Proof.
  apply (cache_round_trip caching "k" "v" (Some 60%Z) None None 2 []);
    reflexivity.
Defined.

Lemma handlers_stop_at_first_failure_witness :
  outcome (run_op unreachable ∅ (ExecuteQuery "SELECT 1" None)) only_postgres
    (fun v _ evs =>
       forall x post,
         after_raise evs = Some (x, post) ->
         post = [Print (failure_prefix (ExecuteQuery "SELECT 1" None) +:+ x)]
         /\ v = sentinel (ExecuteQuery "SELECT 1" None)).
Proof.
  apply (handlers_stop_at_first_failure unreachable ∅
           (ExecuteQuery "SELECT 1" None) only_postgres).
  discriminate.
Defined.

(** ** Each method keeps to its own calls *)

Ltac own_finish :=
  eexists _, _, _; split; [by flat|]; split; [done|reflexivity].

Lemma execute_postgres_query_own
    (B : Backend) (query : string) (params : option (list string))
    (s : state) :
  outcome (execute_postgres_query B query params) s
    (fun _ d evs =>
       d = self s
       /\ forallb (own_event (ExecuteQuery query params)) evs = true).
Proof.
  destruct s as [[[conn|] rc sc] t]; unfold outcome, execute_postgres_query;
    exec; [|own_finish].
  ask B; [|own_finish]. ask B; [|own_finish].
  destruct (is_select query); exec; (ask B; [|own_finish]); ask B;
    own_finish.
Qed.

Lemma set_redis_value_own
    (B : Backend) (key val : string) (expiry : option Z) (s : state) :
  outcome (set_redis_value B key val expiry) s
    (fun _ d evs =>
       d = self s
       /\ forallb (own_event (SetValue key val expiry)) evs = true).
Proof.
  destruct s as [[pc [c|] sc] t]; unfold outcome, set_redis_value;
    exec; [|own_finish].
  ask B; own_finish.
Qed.

Lemma get_redis_value_own (B : Backend) (key : string) (s : state) :
  outcome (get_redis_value B key) s
    (fun _ d evs =>
       d = self s /\ forallb (own_event (GetValue key)) evs = true).
Proof.
  destruct s as [[pc [c|] sc] t]; unfold outcome, get_redis_value;
    exec; [|own_finish].
  ask B; own_finish.
Qed.

Lemma upload_to_s3_own
    (B : Backend) (file_path bucket_name : string)
    (object_name : option string) (s : state) :
  outcome (upload_to_s3 B file_path bucket_name object_name) s
    (fun _ d evs =>
       d = self s
       /\ forallb (own_event (Upload file_path bucket_name object_name)) evs
          = true).
Proof.
  destruct s as [[pc rc [c|]] t]; unfold outcome, upload_to_s3;
    exec; [|own_finish].
  ask B; own_finish.
Qed.

Lemma download_from_s3_own
    (B : Backend) (bucket_name object_name file_path : string) (s : state) :
  outcome (download_from_s3 B bucket_name object_name file_path) s
    (fun _ d evs =>
       d = self s
       /\ forallb (own_event (Download bucket_name object_name file_path))
                  evs = true).
Proof.
  destruct s as [[pc rc [c|]] t]; unfold outcome, download_from_s3;
    exec; [|own_finish].
  ask B; own_finish.
Qed.

Ltac held_tac :=
  repeat (apply Forall_cons; split; [by cbn|]); apply Forall_nil_2.

Lemma connect_postgres_own
    (B : Backend) (environ : gmap string string) (s : state) :
  outcome (connect_postgres B environ) s
    (fun _ d evs =>
       forallb (own_event ConnectPostgres) evs = true
       /\ Forall (held_by d) evs
       /\ count (is_constructor Relational) evs = 1
       /\ redis_client d = redis_client (self s)).
Proof.
  unfold outcome. rewrite connect_postgres_run; cbv zeta.
  destruct (B _ _) as [h|e]; eexists _, _, _; (split; [done|]);
    (split; [done|]); (split; [held_tac|done]).
Qed.

Lemma connect_redis_own
    (B : Backend) (environ : gmap string string) (s : state) :
  outcome (connect_redis B environ) s
    (fun _ d evs =>
       forallb (own_event ConnectRedis) evs = true
       /\ Forall (held_by d) evs
       /\ count (is_constructor Cache) evs <= 1
       /\ postgres_conn d = postgres_conn (self s)).
Proof.
  unfold outcome. rewrite connect_redis_run.
  destruct (cache_args environ) as [a|].
  2:{ eexists _, _, _; (split; [done|]); (split; [done|]);
      split; [held_tac|]. split; [cbn; lia|done]. }
  destruct (B _ _) as [h|e].
  2:{ eexists _, _, _; (split; [done|]); (split; [done|]);
      split; [held_tac|]. split; [cbn; lia|done]. }
  cbv zeta. destruct (B _ _) as [u|e];
    eexists _, _, _; (split; [done|]); (split; [done|]);
    (split; [held_tac|]); (split; [cbn; lia|done]).
Qed.

Lemma connect_s3_own
    (B : Backend) (environ : gmap string string) (s : state) :
  outcome (connect_s3 B environ) s
    (fun _ d evs =>
       forallb (own_event ConnectS3) evs = true
       /\ count (is_constructor ObjectStore) evs = 1
       /\ postgres_conn d = postgres_conn (self s)
       /\ redis_client d = redis_client (self s)).
Proof.
  unfold outcome. rewrite connect_s3_run; cbv zeta.
  destruct (B _ _) as [h|e].
  2:{ by eexists _, _, _; (split; [done|]). }
  destruct (B _ _) as [u|e]; by eexists _, _, _; (split; [done|]).
Qed.

Lemma close_connections_own (B : Backend) (s : state) :
  local_calls_return B ->
  outcome (close_connections B) s
    (fun _ d evs =>
       forallb (own_event CloseConnections) evs = true
       /\ (forall h, postgres_conn (self s) = Some h ->
                     Call (PgClose h) (Ok tt) ∈ evs)
       /\ (forall h, redis_client (self s) = Some h ->
                     Call (RedisClose h) (Ok tt) ∈ evs)).
Proof.
  intros (Hpg & Hredis & _).
  destruct s as [[[conn|] [c|] sc] t]; unfold outcome, close_connections;
    exec; rewrite ?Hpg, ?Hredis; exec; rewrite ?Hpg, ?Hredis; exec;
    eexists _, _, _; (split; [by flat|]); (split; [done|]);
    split; intros h [= <-]; here.
Qed.

(** X8. Every method adds to the trace only printed lines and calls of
    its own kind -- a statement never touches the cache or the object
    store, a cache operation never touches the database, no method but
    close-all closes anything -- and every method that is not a connect
    leaves the three handles as they were, close-all included even when
    it raises. *)
Theorem methods_keep_to_their_calls
    (B : Backend) (environ : gmap string string) (o : op) (s : state) :
  exists r d evs,
    run_op B environ o s = (r, mkState d (trace s ++ evs))
    /\ forallb (own_event o) evs = true
    /\ (connects o = None -> d = self s).
Proof.
  destruct o; unfold run_op; exec.
  - destruct (connect_postgres_own B environ s)
      as (v & d & evs & -> & H & _). by eexists _, _, _.
  - destruct (connect_redis_own B environ s)
      as (v & d & evs & -> & H & _). by eexists _, _, _.
  - destruct (connect_s3_own B environ s)
      as (v & d & evs & -> & H & _). by eexists _, _, _.
  - destruct (execute_postgres_query_own B query params s)
      as (v & d & evs & -> & -> & H). by eexists _, _, _.
  - destruct (set_redis_value_own B key val expiry s)
      as (v & d & evs & -> & -> & H). by eexists _, _, _.
  - destruct (get_redis_value_own B key s)
      as (v & d & evs & -> & -> & H). by eexists _, _, _.
  - destruct (upload_to_s3_own B file_path bucket_name object_name s)
      as (v & d & evs & -> & -> & H). by eexists _, _, _.
  - destruct (download_from_s3_own B bucket_name object_name file_path s)
      as (v & d & evs & -> & -> & H). by eexists _, _, _.
  - destruct s as [[[conn|] [c|] sc] t]; unfold close_connections; exec;
      repeat ask B; eexists _, _, _; (split; [by flat|]); done.
Qed.

(** ** A pass cleans up after itself *)

Lemma forallb_Forall (p : event -> bool) (l : list event) :
  forallb p l = true <-> Forall (fun e => p e = true) l.
Proof.
  induction l as [|e l IH]; cbn; [by split|].
  rewrite andb_true_iff, Forall_cons. by rewrite IH.
Qed.

Lemma count_app (p : event -> bool) (l l' : list event) :
  count p (l ++ l') = count p l + count p l'.
Proof. unfold count. by rewrite List.filter_app, length_app. Qed.

Lemma count_none (p q : event -> bool) (l : list event) :
  (forall e, q e = true -> p e = false) ->
  forallb q l = true -> count p l = 0.
Proof.
  intros Hpq. induction l as [|e l IH]; [done|].
  cbn. intros [He Hl]%andb_true_iff.
  unfold count in *. cbn. rewrite (Hpq e He). by apply IH.
Qed.

Lemma own_plain (o : op) (e : event) :
  connects o = None -> own_event o e = true -> plain e = true.
Proof. destruct o, e as [[] ?| | |]; done. Qed.

Lemma own_no_sleep (o : op) (e : event) :
  own_event o e = true -> is_sleep e = false.
Proof. destruct e; done. Qed.

Lemma own_other_service (o : op) (sv : service) (e : event) :
  is_connect_of sv o = false -> own_event o e = true ->
  is_constructor sv e = false.
Proof. destruct sv, o, e as [[] ?| | |]; done. Qed.

Lemma plain_no_constructor (sv : service) (e : event) :
  plain e = true -> is_constructor sv e = false.
Proof. destruct sv, e as [[] ?| | |]; done. Qed.

Lemma plain_no_sleep (e : event) : plain e = true -> is_sleep e = false.
Proof. destruct e as [[] ?| | |]; done. Qed.

Lemma plain_quiet (e : event) : plain e = true -> opened_by e = None.
Proof. destruct e as [[] [|]| | |]; done. Qed.

Lemma closed_pg (d : DataConnector) (post : list event) (e : event) :
  (forall h, postgres_conn d = Some h -> Call (PgClose h) (Ok tt) ∈ post) ->
  own_event ConnectPostgres e = true -> held_by d e -> closed_in post e.
Proof.
  intros Hd. destruct e as [[] [|]| | |]; try done.
  unfold held_by, closed_in; cbn. auto.
Qed.

Lemma closed_redis (d : DataConnector) (post : list event) (e : event) :
  (forall h, redis_client d = Some h -> Call (RedisClose h) (Ok tt) ∈ post) ->
  own_event ConnectRedis e = true -> held_by d e -> closed_in post e.
Proof.
  intros Hd. destruct e as [[] [|]| | |]; try done.
  unfold held_by, closed_in; cbn. auto.
Qed.

Lemma closed_s3 (post : list event) (e : event) :
  own_event ConnectS3 e = true -> closed_in post e.
Proof. destruct e as [[] [|]| | |]; done. Qed.

Lemma closed_plain (post : list event) (e : event) :
  plain e = true -> closed_in post e.
Proof. intros H. unfold closed_in. by rewrite (plain_quiet e H). Qed.

Lemma own_plain_list (o : op) (l : list event) :
  connects o = None ->
  forallb (own_event o) l = true -> forallb plain l = true.
Proof.
  intros Ho. induction l as [|e l IH]; [done|]. cbn.
  intros [He Hl]%andb_true_iff. by rewrite (own_plain o e Ho He), IH.
Qed.

Lemma Forall_closed_plain (post l : list event) :
  forallb plain l = true -> Forall (closed_in post) l.
Proof.
  intros H%forallb_Forall. eapply Forall_impl; [exact H|].
  intros e. apply closed_plain.
Qed.

Lemma pass_intro (d1 d2 d3 : DataConnector)
    (e1 e2 e3 e4 e5 e6 e7 : list event) :
  forallb (own_event ConnectPostgres) e1 = true ->
  Forall (held_by d1) e1 ->
  count (is_constructor Relational) e1 = 1 ->
  forallb (own_event ConnectRedis) e2 = true ->
  Forall (held_by d2) e2 ->
  count (is_constructor Cache) e2 <= 1 ->
  postgres_conn d2 = postgres_conn d1 ->
  forallb (own_event ConnectS3) e3 = true ->
  count (is_constructor ObjectStore) e3 = 1 ->
  postgres_conn d3 = postgres_conn d2 ->
  redis_client d3 = redis_client d2 ->
  forallb plain e4 = true ->
  forallb plain e5 = true ->
  forallb plain e6 = true ->
  forallb (own_event CloseConnections) e7 = true ->
  (forall h, postgres_conn d3 = Some h -> Call (PgClose h) (Ok tt) ∈ e7) ->
  (forall h, redis_client d3 = Some h -> Call (RedisClose h) (Ok tt) ∈ e7) ->
  let evs := e1 ++ e2 ++ e3 ++ e4 ++ e5 ++ e6 ++ e7
             ++ [Print separator; Sleep 3] in
  pass_tidy evs
  /\ count (is_constructor Relational) evs = 1
  /\ count (is_constructor Cache) evs <= 1
  /\ count (is_constructor ObjectStore) evs = 1
  /\ count is_sleep evs = 1.
Proof.
  intros O1 H1 N1 O2 H2 N2 P2 O3 N3 P3 R3 L4 L5 L6 O7 Cpg Crc evs.
  pose proof (own_plain_list CloseConnections e7 eq_refl O7) as L7.
  split; [|subst evs; rewrite !count_app; repeat split].
  - exists (e1 ++ e2 ++ e3 ++ e4 ++ e5 ++ e6),
           (e7 ++ [Print separator; Sleep 3]).
    split; [subst evs; by rewrite <- !app_assoc|]. split.
    + set (post := e7 ++ _).
      assert (forall h, postgres_conn d1 = Some h ->
                        Call (PgClose h) (Ok tt) ∈ post) as Cpg'.
      { intros h Hh. apply elem_of_app. left. apply Cpg. congruence. }
      assert (forall h, redis_client d2 = Some h ->
                        Call (RedisClose h) (Ok tt) ∈ post) as Crc'.
      { intros h Hh. apply elem_of_app. left. apply Crc. congruence. }
      repeat apply Forall_app_2; try by apply Forall_closed_plain.
      * apply forallb_Forall in O1.
        assert (Forall (fun e => own_event ConnectPostgres e = true
                                 /\ held_by d1 e) e1) as H
          by (by apply Forall_and).
        eapply Forall_impl; [exact H|].
        intros e [Ho Hh]. by eapply closed_pg.
      * apply forallb_Forall in O2.
        assert (Forall (fun e => own_event ConnectRedis e = true
                                 /\ held_by d2 e) e2) as H
          by (by apply Forall_and).
        eapply Forall_impl; [exact H|].
        intros e [Ho Hh]. by eapply closed_redis.
      * apply forallb_Forall in O3.
        eapply Forall_impl; [exact O3|]. intros e. apply closed_s3.
    + apply Forall_app_2.
      * apply forallb_Forall in L7.
        eapply Forall_impl; [exact L7|]. intros e. apply plain_quiet.
      * by repeat constructor.
  - rewrite N1.
    rewrite (count_none _ _ e2 (fun e => own_other_service ConnectRedis Relational e eq_refl) O2),
      (count_none _ _ e3 (fun e => own_other_service ConnectS3 Relational e eq_refl) O3),
      (count_none _ _ e4 (plain_no_constructor Relational) L4),
      (count_none _ _ e5 (plain_no_constructor Relational) L5),
      (count_none _ _ e6 (plain_no_constructor Relational) L6),
      (count_none _ _ e7 (plain_no_constructor Relational) L7).
    done.
  - rewrite (count_none _ _ e1 (fun e => own_other_service ConnectPostgres Cache e eq_refl) O1),
      (count_none _ _ e3 (fun e => own_other_service ConnectS3 Cache e eq_refl) O3),
      (count_none _ _ e4 (plain_no_constructor Cache) L4),
      (count_none _ _ e5 (plain_no_constructor Cache) L5),
      (count_none _ _ e6 (plain_no_constructor Cache) L6),
      (count_none _ _ e7 (plain_no_constructor Cache) L7).
    cbn. lia.
  - rewrite N3.
    rewrite (count_none _ _ e1 (fun e => own_other_service ConnectPostgres ObjectStore e eq_refl) O1),
      (count_none _ _ e2 (fun e => own_other_service ConnectRedis ObjectStore e eq_refl) O2),
      (count_none _ _ e4 (plain_no_constructor ObjectStore) L4),
      (count_none _ _ e5 (plain_no_constructor ObjectStore) L5),
      (count_none _ _ e6 (plain_no_constructor ObjectStore) L6),
      (count_none _ _ e7 (plain_no_constructor ObjectStore) L7).
    done.
  - rewrite (count_none _ _ e1 (own_no_sleep ConnectPostgres) O1),
      (count_none _ _ e2 (own_no_sleep ConnectRedis) O2),
      (count_none _ _ e3 (own_no_sleep ConnectS3) O3),
      (count_none _ _ e4 plain_no_sleep L4),
      (count_none _ _ e5 plain_no_sleep L5),
      (count_none _ _ e6 plain_no_sleep L6),
      (count_none _ _ e7 plain_no_sleep L7).
    done.
Qed.

Lemma iteration_tidy
    (B : Backend) (environ : gmap string string) (s : state) :
  local_calls_return B ->
  outcome (iteration B environ) s
    (fun _ _ evs =>
       pass_tidy evs
       /\ count (is_constructor Relational) evs = 1
       /\ count (is_constructor Cache) evs <= 1
       /\ count (is_constructor ObjectStore) evs = 1
       /\ count is_sleep evs = 1).
Proof.
  intros HB. unfold iteration.
  eapply (outcome_bind _ _ _ (fun _ _ evs => evs = []));
    [by apply outcome_init|]. intros _ d0 e0 ->.
  then_ connect_postgres_own. intros b1 d1 e1 (O1 & H1 & N1 & _).
  then_ connect_redis_own. intros b2 d2 e2 (O2 & H2 & N2 & P2).
  then_ connect_s3_own. intros b3 d3 e3 (O3 & N3 & P3 & R3).
  cbn [self] in P2, P3, R3.
  eapply (outcome_bind _ _ _
            (fun _ d evs => d = d3 /\ forallb plain evs = true)).
  { destruct b1; [|by apply outcome_ret].
    then_ execute_postgres_query_own. intros ? ? x1 [-> X1].
    then_ execute_postgres_query_own. intros ? ? x2 [-> X2].
    then_ execute_postgres_query_own. intros ? ? x3 [-> X3].
    apply outcome_emit. split; [done|].
    rewrite !forallb_app.
    by rewrite (own_plain_list (ExecuteQuery _ _) _ eq_refl X1),
      (own_plain_list (ExecuteQuery _ _) _ eq_refl X2),
      (own_plain_list (ExecuteQuery _ _) _ eq_refl X3). }
  intros _ ? e4 [-> L4].
  eapply (outcome_bind _ _ _
            (fun _ d evs => d = d3 /\ forallb plain evs = true)).
  { destruct b2; [|by apply outcome_ret].
    then_ set_redis_value_own. intros ? ? x1 [-> X1].
    then_ get_redis_value_own. intros ? ? x2 [-> X2].
    apply outcome_emit. split; [done|].
    rewrite !forallb_app.
    by rewrite (own_plain_list (SetValue _ _ _) _ eq_refl X1),
      (own_plain_list (GetValue _) _ eq_refl X2). }
  intros _ ? e5 [-> L5].
  eapply (outcome_bind _ _ _
            (fun _ d evs => d = d3 /\ forallb plain evs = true)).
  { destruct b3; [|by apply outcome_ret].
    eapply (outcome_bind _ _ _
              (fun _ d evs => d = d3 /\ forallb plain evs = true)).
    { eapply outcome_client; [apply HB|]. done. }
    intros ? ? x0 [-> X0].
    then_ upload_to_s3_own. intros ? ? x1 [-> X1].
    then_ download_from_s3_own. intros ? ? x2 [-> X2].
    apply outcome_ret. split; [done|].
    rewrite !forallb_app, X0.
    by rewrite (own_plain_list (Upload _ _ _) _ eq_refl X1),
      (own_plain_list (Download _ _ _) _ eq_refl X2). }
  intros _ ? e6 [-> L6].
  eapply outcome_bind; [by apply close_connections_own|]; cbn beta.
  intros _ d7 e7 (O7 & Cpg & Crc). cbn [self] in Cpg, Crc.
  eapply (outcome_bind _ _ _ (fun _ _ evs => evs = [Print separator]));
    [by apply outcome_emit|]. intros _ d8 ? ->.
  apply outcome_emit. cbn [app].
  by eapply (pass_intro d1 d2 d3).
Qed.

(** X9. As long as the two closes and the writing of the test file
    return normally, every pass of the driver cleans up after itself:
    the events of [n] passes split into [n] runs, and in each run every
    relational connection and every cache client that a constructor
    returned -- also a cache client whose probe then failed -- is closed
    by the teardown of the same pass, which opens nothing. *)
Theorem main_closes_what_it_opens
    (B : Backend) (environ : gmap string string) (n : nat) (s : state) :
  local_calls_return B ->
  outcome (main B environ n) s
    (fun _ _ evs =>
       exists chunks,
         evs = concat chunks
         /\ length chunks = n
         /\ Forall pass_tidy chunks).
Proof.
  intros HB. revert s. induction n as [|n IH]; intros s.
  - apply outcome_ret. by exists [].
  - cbn [main].
    eapply outcome_bind; [by apply iteration_tidy|]; cbn beta.
    intros _ d evs (Hevs & _).
    eapply outcome_weaken; [apply IH|]; cbn beta.
    intros _ _ evs' (chunks & -> & <- & Hchunks).
    exists (evs :: chunks). split; [done|]. split; [done|].
    by apply Forall_cons.
Qed.

Lemma main_closes_what_it_opens_witness :
  outcome (main live ∅ 2) (new_facade [])
    (fun _ _ evs =>
       exists chunks,
         evs = concat chunks
         /\ length chunks = 2
         /\ Forall pass_tidy chunks).
Proof.
  apply (main_closes_what_it_opens live ∅ 2 (new_facade [])).
  repeat split; intros; reflexivity.
Defined.

(** X10. As long as the two closes and the writing of the test file
    return normally, the first [n] passes of the driver sleep [n]
    times and try to connect exactly [n] times to the database, [n]
    times to the object store and at most [n] times to the cache:
    one attempt per service and pass, with a sleep between passes,
    whatever fails. *)
Theorem main_one_attempt_per_pass
    (B : Backend) (environ : gmap string string) (n : nat) (s : state) :
  local_calls_return B ->
  outcome (main B environ n) s
    (fun _ _ evs =>
       count (is_constructor Relational) evs = n
       /\ count (is_constructor Cache) evs <= n
       /\ count (is_constructor ObjectStore) evs = n
       /\ count is_sleep evs = n).
Proof.
  intros HB. revert s. induction n as [|n IH]; intros s.
  - apply outcome_ret. cbn. auto.
  - cbn [main].
    eapply outcome_bind; [by apply iteration_tidy|]; cbn beta.
    intros _ d evs (_ & N1 & N2 & N3 & N4).
    eapply outcome_weaken; [apply IH|]; cbn beta.
    intros _ _ evs' (M1 & M2 & M3 & M4).
    rewrite !count_app. lia.
Qed.

Lemma main_one_attempt_per_pass_witness :
  outcome (main services_down ∅ 2) (new_facade [])
    (fun _ _ evs =>
       count (is_constructor Relational) evs = 2
       /\ count (is_constructor Cache) evs <= 2
       /\ count (is_constructor ObjectStore) evs = 2
       /\ count is_sleep evs = 2).
Proof.
  apply (main_one_attempt_per_pass services_down ∅ 2 (new_facade [])).
  repeat split; intros; reflexivity.
Defined.

(** With a cache whose probe fails the client is still constructed in
    every pass, and closed in every pass. *)
Example failed_probe_client_is_closed :
  let B := failing_on is_ping "timed out" live in
  let r := main B ∅ 1 (new_facade []) in
  fst r = Ok tt
  /\ existsb is_redis_example (trace (snd r)) = false
  /\ existsb (is_close_of 3) (trace (snd r)) = true
  /\ existsb (opens 3) (trace (snd r)) = true.
Proof. vm_compute. done. Qed.

(** ** After the teardown *)

Lemma close_connections_closes_pg (B : Backend) (s : state) (h : handle) :
  postgres_conn (self s) = Some h ->
  exists evs,
    snd (close_connections B s) = mkState (self s) (trace s ++ evs)
    /\ omap pg_close_of evs = [h].
Proof.
  destruct s as [[pc [c|] sc] t]; cbn [self postgres_conn]; intros ->;
    unfold close_connections; exec; repeat ask B;
    eexists; (split; [cbn [snd]; by flat|done]).
Qed.

Lemma run_op_close (B : Backend) (environ : gmap string string) (s : state) :
  snd (run_op B environ CloseConnections s) = snd (close_connections B s).
Proof.
  unfold run_op. exec. by destruct (close_connections B s) as [[|] s'].
Qed.

(** X11. close-all does not remember that it ran: on a facade that
    holds a relational connection, calling it [k] times calls
    [close()] on that same connection [k] times, whatever each call
    returns or raises. *)
Theorem repeated_close_closes_again
    (B : Backend) (environ : gmap string string) (k : nat) (s : state)
    (h : handle) :
  postgres_conn (self s) = Some h ->
  exists evs,
    after B environ (replicate k CloseConnections) s
    = mkState (self s) (trace s ++ evs)
    /\ omap pg_close_of evs = replicate k h.
Proof.
  revert s. induction k as [|k IH]; intros s Hh.
  - exists []. destruct s. cbn. by rewrite app_nil_r.
  - change (after B environ (replicate (S k) CloseConnections) s)
      with (after B environ (replicate k CloseConnections)
              (snd (run_op B environ CloseConnections s))).
    rewrite run_op_close.
    destruct (close_connections_closes_pg B s h Hh) as (evs & -> & Hevs).
    destruct (IH (mkState (self s) (trace s ++ evs)) Hh)
      as (evs' & -> & Hevs').
    exists (evs ++ evs'). cbn [self trace]. split; [by rewrite app_assoc|].
    by rewrite omap_app, Hevs, Hevs'.
Qed.

Lemma repeated_close_closes_again_witness :
  exists evs,
    after live ∅ (replicate 2 CloseConnections) all_connected
    = mkState (self all_connected) (trace all_connected ++ evs)
    /\ omap pg_close_of evs = replicate 2 1.
Proof.
  apply (repeated_close_closes_again live ∅ 2 all_connected 1).
  reflexivity.
Defined.

(** X12. After close-all the facade still counts as connected: a
    statement on a facade that held a relational connection goes to
    that closed connection (its first event is the call of
    [cursor()]), and a cache operation on a facade that held a cache
    client goes to that closed client, instead of the line that tells
    the connection is not established. *)
Theorem use_after_close_reaches_client
    (B : Backend) (s : state) (query : string)
    (params : option (list string)) (key : string) :
  let s' := snd (close_connections B s) in
  (forall h, postgres_conn (self s) = Some h ->
     exists r evs,
       trace (snd (execute_postgres_query B query params s'))
       = trace s' ++ Call (PgCursor h) r :: evs)
  /\ (forall c, redis_client (self s) = Some c ->
     exists r evs,
       trace (snd (get_redis_value B key s'))
       = trace s' ++ Call (RedisGet c key) r :: evs).
Proof.
  intros s'. pose proof (close_connections_self B s) as Hs.
  fold s' in Hs. clearbody s'. destruct s' as [d' t']. cbn in Hs. subst d'.
  destruct s as [[pc rc sc] t]. cbn [self postgres_conn redis_client trace].
  split.
  - intros h ->. unfold execute_postgres_query; exec.
    ask B; [ask B; [destruct (is_select query); exec;
                    (ask B; [ask B|])|]|];
      eexists _, _; by flat.
  - intros c ->. unfold get_redis_value; exec.
    ask B; eexists _, _; by flat.
Qed.
